(** * Hospital Management System: the scheduling store

    A shallow embedding of [hospital_app.py] (schema, triggers, seed data,
    [book_appointment], the per-doctor report) and of the routes of [app.py]
    that write to the database ([book], [patient_new], [patient_delete],
    [doctor_new], [doctor_delete]).

    The SQLite database is an explicit [store]: one list of rows per table,
    kept in rowid order, and the [sqlite_sequence] counters that AUTOINCREMENT
    maintains.  A statement is a function from stores to a [result]; a
    failing statement leaves the store as it found it ([execute]).

    Modelling boundaries.  Text is a [string] of UTF-8 bytes, compared
    bytewise as the BINARY collation does.  Row ids are mathematical
    integers: the 64-bit ceiling of a rowid is outside the model, and so is
    the OverflowError of a Python int that SQLite cannot hold; a statement
    about ids that need not be in the store is made for [sqlite_integer]
    ids.  One connection runs at a time. *)

From Stdlib Require Import ZArith List String Ascii Bool Lia.
From Stdlib Require Import Permutation Sorted Orders Mergesort DecimalString.
From Stdlib Require Import RelationClasses.
Import ListNotations.

Local Open Scope Z_scope.

(** ** Text helpers *)

Definition str_eqb (a b : string) : bool := String.eqb a b.

(** [x || y] of SQL on two non-NULL texts. *)
Definition cat (a b : string) : string := String.append a b.
Infix "+++" := cat (right associativity, at level 60).

(** The text SQLite produces when an INTEGER meets [||]. *)
Definition text_of_int (z : Z) : string := NilZero.string_of_int (Z.to_int z).

(** Python truthiness of a [str]: the empty string is falsy. *)
Definition truthy (s : string) : bool :=
  match s with EmptyString => false | String _ _ => true end.

(** Python's [x or None] on the result of [form.get]. *)
Definition or_None (o : option string) : option string :=
  match o with
  | Some s => if truthy s then Some s else None
  | None => None
  end.

(** Code points that [str.isspace] accepts, one byte long in UTF-8:
    U+0009..U+000D, U+001C..U+001F and U+0020. *)
Definition space1 (c : ascii) : bool :=
  let n := N_of_ascii c in
  ((9 <=? n) && (n <=? 13) || (28 <=? n) && (n <=? 31) || (n =? 32))%N.

(** Two bytes: U+0085 and U+00A0. *)
Definition space2 (c1 c2 : ascii) : bool :=
  let a := N_of_ascii c1 in
  let b := N_of_ascii c2 in
  ((a =? 194) && ((b =? 133) || (b =? 160)))%N.

(** Three bytes: U+1680, U+2000..U+200A, U+2028, U+2029, U+202F, U+205F
    and U+3000. *)
Definition space3 (c1 c2 c3 : ascii) : bool :=
  let a := N_of_ascii c1 in
  let b := N_of_ascii c2 in
  let c := N_of_ascii c3 in
  ((a =? 225) && (b =? 154) && (c =? 128)
   || (a =? 226) && (b =? 128)
      && ((128 <=? c) && (c <=? 138) || (c =? 168) || (c =? 169) || (c =? 175))
   || (a =? 226) && (b =? 129) && (c =? 159)
   || (a =? 227) && (b =? 128) && (c =? 128))%N.

(** [lstrip] on a list of bytes; [rev3] tells whether the list is read
    backwards, in which case a multi-byte code point shows its last byte
    first. *)
Fixpoint lstrip_bytes (rev3 : bool) (l : list ascii) : list ascii :=
  match l with
  | [] => []
  | c1 :: l1 =>
      if space1 c1 then lstrip_bytes rev3 l1
      else
        match l1 with
        | [] => l
        | c2 :: l2 =>
            if (if rev3 then space2 c2 c1 else space2 c1 c2)
            then lstrip_bytes rev3 l2
            else
              match l2 with
              | [] => l
              | c3 :: l3 =>
                  if (if rev3 then space3 c3 c2 c1 else space3 c1 c2 c3)
                  then lstrip_bytes rev3 l3
                  else l
              end
        end
  end.

(** [str.strip()] with no argument. *)
Definition strip (s : string) : string :=
  let l := lstrip_bytes false (list_ascii_of_string s) in
  string_of_list_ascii (rev (lstrip_bytes true (rev l))).

(** ** Rows *)

Inductive appointment_status := Booked | Completed | Cancelled.

Definition status_eqb (a b : appointment_status) : bool :=
  match a, b with
  | Booked, Booked | Completed, Completed | Cancelled, Cancelled => true
  | _, _ => false
  end.

Module Patient.
Record row := mk {
    patient_id : Z;
    full_name : string;
    date_of_birth : option string;
    gender : option string;
    phone : option string;
    email : option string }.
End Patient.

Module Doctor.
Record row := mk {
    doctor_id : Z;
    full_name : string;
    specialization : string }.
End Doctor.

Module Room.
Record row := mk {
    room_id : Z;
    room_number : string;
    room_type : string }.
End Room.

Module Appointment.
Record row := mk {
    appointment_id : Z;
    patient_id : Z;
    doctor_id : Z;
    room_id : option Z;
    start_time : string;
    end_time : option string;
    notes : option string;
    status : appointment_status }.
End Appointment.

Module AuditLogEntry.
Record row := mk {
    log_id : Z;
    entity : string;
    action : string;
    details : option string;
    created_at : option string }.
End AuditLogEntry.

(** ** The store *)

(** The [seq] column of [sqlite_sequence], one counter per AUTOINCREMENT
    table; a table without a line there counts as 0. *)
Record sqlite_sequence := mk_seq {
  seq_Patients : Z;
  seq_Doctors : Z;
  seq_Rooms : Z;
  seq_Appointments : Z;
  seq_AuditLog : Z }.

Record store := mk_store {
  Patients : list Patient.row;
  Doctors : list Doctor.row;
  Rooms : list Room.row;
  Appointments : list Appointment.row;
  AuditLog : list AuditLogEntry.row;
  sequence : sqlite_sequence }.

(** The database right after the DDL ran on a new file. *)
Definition empty_store : store :=
  mk_store [] [] [] [] [] (mk_seq 0 0 0 0 0).

(** ** Errors and statements *)

(** What made SQLite report SQLITE_CONSTRAINT. *)
Inductive constraint :=
| TriggerAbort (message : string)
| ForeignKeyFailed
| UniqueFailed (column : string)
| CheckFailed (table : string).

(** [sqlite3.IntegrityError] is the one exception these statements raise. *)
Inductive exn := IntegrityError (c : constraint).

Inductive result (A : Type) :=
| Ok (a : A)
| Error (e : exn).
Arguments Ok {A} a.
Arguments Error {A} e.

Definition statement (A : Type) := store -> result (A * store).

(** [conn.execute(...)] then [conn.commit()]: a statement that fails is
    rolled back, and the connection is closed without a commit. *)
Definition execute {A : Type} (st : statement A) (s : store) : store * result A :=
  match st s with
  | Ok (a, s') => (s', Ok a)
  | Error e => (s, Error e)
  end.

(** ** Row ids *)

(** The largest rowid of a table, if it has a row. *)
Fixpoint largest_rowid (ids : list Z) : option Z :=
  match ids with
  | [] => None
  | x :: r =>
      match largest_rowid r with
      | None => Some x
      | Some y => Some (Z.max x y)
      end
  end.

(** The rowid AUTOINCREMENT picks: one more than the largest rowid the
    table holds or ever held. *)
Definition new_rowid (seq : Z) (ids : list Z) : Z :=
  match largest_rowid ids with
  | None => Z.max 1 (seq + 1)
  | Some v => Z.max (v + 1) (seq + 1)
  end.

(** A table is a b-tree on the rowid: a row goes before the first row
    with a larger rowid. *)
Fixpoint insert_row {R : Type} (key : R -> Z) (r : R) (t : list R) : list R :=
  match t with
  | [] => [r]
  | x :: t' => if key r <? key x then r :: x :: t' else x :: insert_row key r t'
  end.

(** Field updates of the store. *)
Definition with_Patients (t : list Patient.row) (q : Z) (s : store) : store :=
  let sq := sequence s in
  mk_store t (Doctors s) (Rooms s) (Appointments s) (AuditLog s)
    (mk_seq q (seq_Doctors sq) (seq_Rooms sq) (seq_Appointments sq) (seq_AuditLog sq)).

Definition with_Doctors (t : list Doctor.row) (q : Z) (s : store) : store :=
  let sq := sequence s in
  mk_store (Patients s) t (Rooms s) (Appointments s) (AuditLog s)
    (mk_seq (seq_Patients sq) q (seq_Rooms sq) (seq_Appointments sq) (seq_AuditLog sq)).

Definition with_Rooms (t : list Room.row) (q : Z) (s : store) : store :=
  let sq := sequence s in
  mk_store (Patients s) (Doctors s) t (Appointments s) (AuditLog s)
    (mk_seq (seq_Patients sq) (seq_Doctors sq) q (seq_Appointments sq) (seq_AuditLog sq)).

Definition with_Appointments (t : list Appointment.row) (q : Z) (s : store) : store :=
  let sq := sequence s in
  mk_store (Patients s) (Doctors s) (Rooms s) t (AuditLog s)
    (mk_seq (seq_Patients sq) (seq_Doctors sq) (seq_Rooms sq) q (seq_AuditLog sq)).

Definition with_AuditLog (t : list AuditLogEntry.row) (q : Z) (s : store) : store :=
  let sq := sequence s in
  mk_store (Patients s) (Doctors s) (Rooms s) (Appointments s) t
    (mk_seq (seq_Patients sq) (seq_Doctors sq) (seq_Rooms sq) (seq_Appointments sq) q).

(** ** Parent keys *)

Definition has_patient (s : store) (id : Z) : bool :=
  existsb (fun p => Patient.patient_id p =? id) (Patients s).

Definition has_doctor (s : store) (id : Z) : bool :=
  existsb (fun d => Doctor.doctor_id d =? id) (Doctors s).

Definition has_room (s : store) (id : Z) : bool :=
  existsb (fun r => Room.room_id r =? id) (Rooms s).

(** An integer of the signed 64-bit range, the INTEGER of SQLite. *)
Definition sqlite_integer (z : Z) : Prop := - 2 ^ 63 <= z < 2 ^ 63.

(** ** INSERT INTO Appointments and its triggers *)

(** What a bound parameter is once the INTEGER affinity of its column has
    been applied: an integer, or a value no integer key is equal to. *)
Inductive value := Integer (z : Z) | NotInteger.

Definition value_eqb (v : value) (z : Z) : bool :=
  match v with
  | Integer x => x =? z
  | NotInteger => false
  end.

Definition not_cancelled (a : Appointment.row) : bool :=
  negb (status_eqb (Appointment.status a) Cancelled).

(** The WHEN clause of [trg_no_double_book_doctor]. *)
Definition trg_no_double_book_doctor (s : store) (new_doctor_id : value)
    (new_start_time : string) : bool :=
  existsb (fun a =>
             value_eqb new_doctor_id (Appointment.doctor_id a)
             && str_eqb (Appointment.start_time a) new_start_time
             && not_cancelled a)
          (Appointments s).

(** The WHEN clause of [trg_no_double_book_room]; [a.room_id = NEW.room_id]
    is not true of a row whose room is NULL. *)
Definition trg_no_double_book_room (s : store) (new_room_id : option value)
    (new_start_time : string) : bool :=
  match new_room_id with
  | None => false
  | Some r =>
      existsb (fun a =>
                 match Appointment.room_id a with
                 | Some x => value_eqb r x
                 | None => false
                 end
                 && str_eqb (Appointment.start_time a) new_start_time
                 && not_cancelled a)
              (Appointments s)
  end.

Definition doctor_message : string := "Doctor already booked at this time".
Definition room_message : string := "Room already booked at this time".

(** The [details] text that [trg_appointments_insert_log] builds. *)
Definition audit_details (appointment_id patient_id doctor_id : Z)
    (start_time : string) : string :=
  "appointment_id=" +++ text_of_int appointment_id +++
  ", patient_id=" +++ text_of_int patient_id +++
  ", doctor_id=" +++ text_of_int doctor_id +++
  ", start_time=" +++ start_time.

(** The body of [trg_appointments_insert_log]; [now] is CURRENT_TIMESTAMP,
    the default of [created_at]. *)
Definition trg_appointments_insert_log (new : Appointment.row) (now : string)
    (s : store) : store :=
  let id := new_rowid (seq_AuditLog (sequence s))
                      (map AuditLogEntry.log_id (AuditLog s)) in
  let e := AuditLogEntry.mk id "Appointments" "INSERT"
             (Some (audit_details (Appointment.appointment_id new)
                                  (Appointment.patient_id new)
                                  (Appointment.doctor_id new)
                                  (Appointment.start_time new)))
             (Some now) in
  with_AuditLog (insert_row AuditLogEntry.log_id e (AuditLog s)) id s.

(** The three foreign keys of a row of Appointments. *)
Definition foreign_keys_hold (s : store) (a : Appointment.row) : bool :=
  has_patient s (Appointment.patient_id a)
  && has_doctor s (Appointment.doctor_id a)
  && match Appointment.room_id a with
     | Some r => has_room s r
     | None => true
     end.

(** [INSERT INTO Appointments(patient_id, doctor_id, room_id, start_time,
    end_time, notes) VALUES (?, ?, ?, ?, ?, ?)].  The BEFORE triggers run
    first, then the row is written with a new rowid and the default status,
    then the AFTER trigger logs it; the foreign keys are immediate and are
    verified when the statement ends.  Of the two BEFORE triggers SQLite
    runs the one created last first: the room rule is looked at before the
    doctor rule. *)
Definition insert_Appointments (patient_id doctor_id : value)
    (room_id : option value) (start_time : string) (end_time : option string)
    (notes : option string) (now : string) : statement Z :=
  fun s =>
    if trg_no_double_book_room s room_id start_time
    then Error (IntegrityError (TriggerAbort room_message))
    else if trg_no_double_book_doctor s doctor_id start_time
    then Error (IntegrityError (TriggerAbort doctor_message))
    else
      match patient_id, doctor_id, room_id with
      | Integer p, Integer d, None
      | Integer p, Integer d, Some (Integer _) =>
          let r := match room_id with
                   | Some (Integer r) => Some r
                   | _ => None
                   end in
          let id := new_rowid (seq_Appointments (sequence s))
                              (map Appointment.appointment_id (Appointments s)) in
          let new := Appointment.mk id p d r start_time end_time notes Booked in
          let s1 := with_Appointments
                      (insert_row Appointment.appointment_id new (Appointments s))
                      id s in
          let s2 := trg_appointments_insert_log new now s1 in
          if foreign_keys_hold s2 new
          then Ok (id, s2)
          else Error (IntegrityError ForeignKeyFailed)
      | _, _, _ =>
          (* a key that is not an integer has no parent row *)
          Error (IntegrityError ForeignKeyFailed)
      end.

(** [book_appointment] of hospital_app.py; the result is [cur.lastrowid],
    the rowid of the appointment.  [now] is the reading of the clock.  The
    three ids are integers that SQLite can hold ([sqlite_integer]): handed
    a larger Python int, the sqlite3 module raises OverflowError before the
    statement runs, a call that is outside the model. *)
Definition book_appointment (patient_id doctor_id : Z) (start_time : string)
    (end_time : option string) (room_id : option Z) (notes : string)
    (now : string) (s : store) : store * result Z :=
  execute (insert_Appointments (Integer patient_id) (Integer doctor_id)
             (option_map Integer room_id) start_time end_time (Some notes) now) s.

(** ** INSERT INTO Patients, Doctors, Rooms *)

Definition gender_check (g : option string) : bool :=
  match g with
  | None => true
  | Some x => str_eqb x "Male" || str_eqb x "Female" || str_eqb x "Other"
  end.

(** UNIQUE on a nullable text column: NULL clashes with nothing. *)
Definition same_text (a b : option string) : bool :=
  match a, b with
  | Some x, Some y => str_eqb x y
  | _, _ => false
  end.

Definition email_taken (s : store) (e : option string) : bool :=
  existsb (fun p => same_text (Patient.email p) e) (Patients s).

Definition room_number_taken (s : store) (n : string) : bool :=
  existsb (fun r => str_eqb (Room.room_number r) n) (Rooms s).

(** [INSERT INTO Patients(full_name, date_of_birth, gender, phone, email)
    VALUES (?, ?, ?, ?, ?)]: the CHECK on gender comes before the UNIQUE
    index on email. *)
Definition insert_Patients (full_name : string)
    (date_of_birth gender phone email : option string) : statement Z :=
  fun s =>
    let id := new_rowid (seq_Patients (sequence s))
                        (map Patient.patient_id (Patients s)) in
    if negb (gender_check gender)
    then Error (IntegrityError (CheckFailed "Patients"))
    else if email_taken s email
    then Error (IntegrityError (UniqueFailed "Patients.email"))
    else
      let new := Patient.mk id full_name date_of_birth gender phone email in
      Ok (id, with_Patients (insert_row Patient.patient_id new (Patients s)) id s).

(** [INSERT INTO Doctors(full_name, specialization) VALUES (?, ?)]. *)
Definition insert_Doctors (full_name specialization : string) : statement Z :=
  fun s =>
    let id := new_rowid (seq_Doctors (sequence s))
                        (map Doctor.doctor_id (Doctors s)) in
    let new := Doctor.mk id full_name specialization in
    Ok (id, with_Doctors (insert_row Doctor.doctor_id new (Doctors s)) id s).

(** Modelled from the spec: the repository has no route that creates a
    room (rooms come from the seed data only); [createRoom] is the INSERT
    the DDL of Rooms admits, with its UNIQUE room number. *)
Definition insert_Rooms (room_number room_type : string) : statement Z :=
  fun s =>
    let id := new_rowid (seq_Rooms (sequence s))
                        (map Room.room_id (Rooms s)) in
    if room_number_taken s room_number
    then Error (IntegrityError (UniqueFailed "Rooms.room_number"))
    else
      let new := Room.mk id room_number room_type in
      Ok (id, with_Rooms (insert_row Room.room_id new (Rooms s)) id s).

(** ** DELETE and the ON DELETE actions *)

(** [DELETE FROM Patients WHERE patient_id = ?]: a deleted parent takes its
    appointments with it (ON DELETE CASCADE). *)
Definition delete_Patients (id : Z) (s : store) : store :=
  if has_patient s id
  then mk_store (filter (fun p => negb (Patient.patient_id p =? id)) (Patients s))
         (Doctors s) (Rooms s)
         (filter (fun a => negb (Appointment.patient_id a =? id)) (Appointments s))
         (AuditLog s) (sequence s)
  else s.

(** [DELETE FROM Doctors WHERE doctor_id = ?], also ON DELETE CASCADE. *)
Definition delete_Doctors (id : Z) (s : store) : store :=
  if has_doctor s id
  then mk_store (Patients s)
         (filter (fun d => negb (Doctor.doctor_id d =? id)) (Doctors s))
         (Rooms s)
         (filter (fun a => negb (Appointment.doctor_id a =? id)) (Appointments s))
         (AuditLog s) (sequence s)
  else s.

Definition room_is (id : Z) (a : Appointment.row) : bool :=
  match Appointment.room_id a with
  | Some r => r =? id
  | None => false
  end.

(** ON DELETE SET NULL on one child row. *)
Definition set_null_room (id : Z) (a : Appointment.row) : Appointment.row :=
  if room_is id a
  then Appointment.mk (Appointment.appointment_id a) (Appointment.patient_id a)
         (Appointment.doctor_id a) None (Appointment.start_time a)
         (Appointment.end_time a) (Appointment.notes a) (Appointment.status a)
  else a.

(** Modelled from the spec: the repository has no route that deletes a
    room; [deleteRoom] is [DELETE FROM Rooms WHERE room_id = ?] under the
    DDL of Appointments, whose foreign key on room_id is ON DELETE SET
    NULL. *)
Definition delete_Rooms (id : Z) (s : store) : store :=
  if has_room s id
  then mk_store (Patients s) (Doctors s)
         (filter (fun r => negb (Room.room_id r =? id)) (Rooms s))
         (map (set_null_room id) (Appointments s))
         (AuditLog s) (sequence s)
  else s.

(** ** Seed data and [init_db] *)

(** One row of [INSERT OR IGNORE INTO Patients(patient_id, ...)]: a row
    that breaks the CHECK, the primary key or the UNIQUE index is skipped.
    AUTOINCREMENT takes note of the rowid it was shown before the
    constraints are looked at. *)
Definition insert_or_ignore_Patients (r : Patient.row) (s : store) : store :=
  let q := Z.max (seq_Patients (sequence s)) (Patient.patient_id r) in
  if negb (gender_check (Patient.gender r))
     || has_patient s (Patient.patient_id r)
     || email_taken s (Patient.email r)
  then with_Patients (Patients s) q s
  else with_Patients (insert_row Patient.patient_id r (Patients s)) q s.

Definition insert_or_ignore_Doctors (r : Doctor.row) (s : store) : store :=
  let q := Z.max (seq_Doctors (sequence s)) (Doctor.doctor_id r) in
  if has_doctor s (Doctor.doctor_id r)
  then with_Doctors (Doctors s) q s
  else with_Doctors (insert_row Doctor.doctor_id r (Doctors s)) q s.

Definition insert_or_ignore_Rooms (r : Room.row) (s : store) : store :=
  let q := Z.max (seq_Rooms (sequence s)) (Room.room_id r) in
  if has_room s (Room.room_id r) || room_number_taken s (Room.room_number r)
  then with_Rooms (Rooms s) q s
  else with_Rooms (insert_row Room.room_id r (Rooms s)) q s.

Definition seed_Patients : list Patient.row :=
  [ Patient.mk 1 "Alice Johnson" (Some "1995-04-10") (Some "Female")
      (Some "0771234567") (Some "alice@example.com");
    Patient.mk 2 "Bob Perera" (Some "1989-09-12") (Some "Male")
      (Some "0717654321") (Some "bob@example.com") ]%string.

Definition seed_Doctors : list Doctor.row :=
  [ Doctor.mk 1 "Dr. Nimal Fernando" "Cardiology";
    Doctor.mk 2 "Dr. Isuri Ranasinghe" "Dermatology" ]%string.

Definition seed_Rooms : list Room.row :=
  [ Room.mk 1 "C101" "Consultation";
    Room.mk 2 "C102" "Consultation";
    Room.mk 3 "W201" "Ward" ]%string.

(** A multi-row INSERT OR IGNORE takes its rows one after the other. *)
Definition seed_with {R : Type} (one : R -> store -> store) (rows : list R)
    (s : store) : store :=
  fold_left (fun acc r => one r acc) rows s.

Definition insert_or_ignore {R : Type} (one : R -> store -> store)
    (rows : list R) : statement unit :=
  fun s => Ok (tt, seed_with one rows s).

(** [CREATE TABLE / INDEX / TRIGGER IF NOT EXISTS] on a database that has
    the object. *)
Definition create_if_not_exists : statement unit := fun s => Ok (tt, s).

Definition DDL_TABLES : list (statement unit) :=
  [create_if_not_exists; create_if_not_exists; create_if_not_exists;
   create_if_not_exists; create_if_not_exists].

Definition DDL_INDEXES : list (statement unit) :=
  [create_if_not_exists; create_if_not_exists].

Definition DDL_TRIGGERS : list (statement unit) :=
  [create_if_not_exists; create_if_not_exists; create_if_not_exists].

Definition SEED_SQL : list (statement unit) :=
  [ insert_or_ignore insert_or_ignore_Patients seed_Patients;
    insert_or_ignore insert_or_ignore_Doctors seed_Doctors;
    insert_or_ignore insert_or_ignore_Rooms seed_Rooms ].

Fixpoint run_statements (l : list (statement unit)) (s : store) : result store :=
  match l with
  | [] => Ok s
  | st :: l' =>
      match st s with
      | Ok (_, s') => run_statements l' s'
      | Error e => Error e
      end
  end.

(** [exec_many]: the statements one after the other, one commit at the
    end; an exception leaves before the commit. *)
Definition exec_many (l : list (statement unit)) (s : store) : store * result unit :=
  match run_statements l s with
  | Ok s' => (s', Ok tt)
  | Error e => (s, Error e)
  end.

(** Python's sequencing: the next call runs unless the last one raised. *)
Definition and_then (c : store -> store * result unit) (p : store * result unit)
    : store * result unit :=
  match p with
  | (s, Ok _) => c s
  | (s, Error e) => (s, Error e)
  end.

Definition init_db (s : store) : store * result unit :=
  and_then (exec_many SEED_SQL)
    (and_then (exec_many DDL_TRIGGERS)
       (and_then (exec_many DDL_INDEXES)
          (exec_many DDL_TABLES s))).

Arguments init_db : simpl never.

(** ** The routes of app.py *)

(** [ensure_db], which the home page calls: [init_db], with any exception
    printed and dropped. *)
Definition ensure_db (s : store) : store := fst (init_db s).

Definition form := list (string * string).

(** [request.form.get(key)]. *)
Fixpoint form_get (f : form) (key : string) : option string :=
  match f with
  | [] => None
  | (k, v) :: f' => if str_eqb k key then Some v else form_get f' key
  end.

(** [request.form.get(key, default)]. *)
Definition form_get_or (f : form) (key default : string) : string :=
  match form_get f key with
  | Some v => v
  | None => default
  end.

Inductive http_method := GET | POST.

(** What [flash] is given: a fixed text, or a prefix and [str(e)]. *)
Inductive message :=
| Notice (text : string)
| Failure (prefix : string) (e : exn).

Inductive target :=
| Redirect (endpoint : string)
| Render (template : string).

Record response := mk_response {
  flashed : option message;
  goes_to : target }.

(** The INSERT of [book], or nothing when a required field is missing or
    empty.  The form values are bound as text; the columns of the three keys
    have INTEGER affinity. *)
Definition book_insert (integer_affinity : string -> value) (f : form)
    (now : string) : option (statement Z) :=
  let end_time := or_None (form_get f "end_time") in
  let room_id := or_None (form_get f "room_id") in
  let notes := match or_None (form_get f "notes") with
               | Some n => n
               | None => EmptyString
               end in
  match or_None (form_get f "patient_id"),
        or_None (form_get f "doctor_id"),
        or_None (form_get f "start_time") with
  | Some patient_id, Some doctor_id, Some start_time =>
      Some (insert_Appointments (integer_affinity patient_id)
              (integer_affinity doctor_id)
              (option_map integer_affinity room_id)
              start_time end_time (Some notes) now)
  | _, _, _ => None
  end.

Definition book (integer_affinity : string -> value) (f : form) (now : string)
    (s : store) : store * response :=
  match book_insert integer_affinity f now with
  | None =>
      (s, mk_response (Some (Notice "Patient, Doctor and Start Time are required"))
            (Redirect "home"))
  | Some st =>
      match execute st s with
      | (s', Ok _) =>
          (s', mk_response (Some (Notice "Appointment booked successfully"))
                 (Redirect "appointments"))
      | (s', Error e) =>
          (s', mk_response (Some (Failure "Booking failed: " e))
                 (Redirect "appointments"))
      end
  end.

Definition patient_new (m : http_method) (f : form) (s : store)
    : store * response :=
  match m with
  | POST =>
      let full_name := strip (form_get_or f "full_name" "") in
      let dob := strip (form_get_or f "date_of_birth" "") in
      let gender := strip (form_get_or f "gender" "") in
      let phone := strip (form_get_or f "phone" "") in
      let email := strip (form_get_or f "email" "") in
      if negb (truthy full_name)
      then (s, mk_response (Some (Notice "Full name is required."))
                 (Redirect "patient_new"))
      else
        match execute (insert_Patients full_name (Some dob) (Some gender)
                         (Some phone) (Some email)) s with
        | (s', Ok _) =>
            (s', mk_response (Some (Notice "Patient added successfully."))
                   (Redirect "patients"))
        | (s', Error e) =>
            (s', mk_response (Some (Failure "Could not add patient: " e))
                   (Redirect "patients"))
        end
  | GET => (s, mk_response None (Render "patient_new.html"))
  end.

Definition patient_delete (patient_id : Z) (s : store) : store * response :=
  (delete_Patients patient_id s,
   mk_response (Some (Notice "Patient deleted.")) (Redirect "patients")).

Definition doctor_new (m : http_method) (f : form) (s : store)
    : store * response :=
  match m with
  | POST =>
      let full_name := strip (form_get_or f "full_name" "") in
      let specialization := strip (form_get_or f "specialization" "") in
      if negb (truthy full_name) || negb (truthy specialization)
      then (s, mk_response
                 (Some (Notice "Doctor name and specialization are required."))
                 (Redirect "doctor_new"))
      else
        (fst (execute (insert_Doctors full_name specialization) s),
         mk_response (Some (Notice "Doctor added successfully."))
           (Redirect "doctors"))
  | GET => (s, mk_response None (Render "doctor_new.html"))
  end.

Definition doctor_delete (doctor_id : Z) (s : store) : store * response :=
  (delete_Doctors doctor_id s,
   mk_response (Some (Notice "Doctor deleted.")) (Redirect "doctors")).

(** ** Histories *)

(** The operations that write to the store.  [InitDb] stands for [--init]
    and for [ensure_db]; [now] is the reading of the clock during the call;
    [integer_affinity] is SQLite's conversion of a bound text, whatever it
    is. *)
Inductive op :=
| InitDb
| BookAppointment (patient_id doctor_id : Z) (start_time : string)
    (end_time : option string) (room_id : option Z) (notes now : string)
| Book (integer_affinity : string -> value) (f : form) (now : string)
| PatientNew (m : http_method) (f : form)
| PatientDelete (patient_id : Z)
| DoctorNew (m : http_method) (f : form)
| DoctorDelete (doctor_id : Z)
| CreateRoom (room_number room_type : string)
| DeleteRoom (room_id : Z).

Definition step (o : op) (s : store) : store :=
  match o with
  | InitDb => ensure_db s
  | BookAppointment p d t e r n now => fst (book_appointment p d t e r n now s)
  | Book aff f now => fst (book aff f now s)
  | PatientNew m f => fst (patient_new m f s)
  | PatientDelete id => fst (patient_delete id s)
  | DoctorNew m f => fst (doctor_new m f s)
  | DoctorDelete id => fst (doctor_delete id s)
  | CreateRoom n t => fst (execute (insert_Rooms n t) s)
  | DeleteRoom id => delete_Rooms id s
  end.

Definition is_ok {A : Type} (r : result A) : bool :=
  match r with
  | Ok _ => true
  | Error _ => false
  end.

(** Whether [o], run on [s], creates an appointment. *)
Definition creates_appointment (o : op) (s : store) : bool :=
  match o with
  | BookAppointment p d t e r n now =>
      is_ok (snd (book_appointment p d t e r n now s))
  | Book aff f now =>
      match book_insert aff f now with
      | Some st => is_ok (snd (execute st s))
      | None => false
      end
  | _ => false
  end.

(** The store after a history, oldest operation first. *)
Fixpoint run (ops : list op) (s : store) : store :=
  match ops with
  | [] => s
  | o :: ops' => run ops' (step o s)
  end.

(** The number of appointments a history created. *)
Fixpoint created (ops : list op) (s : store) : nat :=
  match ops with
  | [] => 0%nat
  | o :: ops' =>
      ((if creates_appointment o s then 1 else 0) + created ops' (step o s))%nat
  end.

(** ** The conflict rules, as the data model words them *)

(** A non-cancelled appointment of doctor [d] starts at [t]. *)
Definition doctor_conflict (s : store) (d : Z) (t : string) : Prop :=
  exists a, In a (Appointments s)
            /\ Appointment.doctor_id a = d
            /\ Appointment.start_time a = t
            /\ Appointment.status a <> Cancelled.

(** A room is asked for, and a non-cancelled appointment in it starts at
    [t]. *)
Definition room_conflict (s : store) (r : option Z) (t : string) : Prop :=
  exists a x, r = Some x
              /\ In a (Appointments s)
              /\ Appointment.room_id a = Some x
              /\ Appointment.start_time a = t
              /\ Appointment.status a <> Cancelled.

(** Every appointment has its parents: what PRAGMA foreign_keys = ON
    maintains. *)
Definition references_ok (s : store) : bool :=
  forallb (foreign_keys_hold s) (Appointments s).

(** The AuditLog lines that record an INSERT on Appointments. *)
Definition appointment_inserts (s : store) : list AuditLogEntry.row :=
  filter (fun e => str_eqb (AuditLogEntry.entity e) "Appointments"
                   && str_eqb (AuditLogEntry.action e) "INSERT")
         (AuditLog s).

(** ** Invariants and frames *)

(** What every history keeps true of the store. *)
Record consistent (s : store) : Prop := {
  appointment_ids_unique :
    NoDup (map Appointment.appointment_id (Appointments s));
  doctor_rule : forall a b,
    In a (Appointments s) -> In b (Appointments s) ->
    Appointment.status a <> Cancelled -> Appointment.status b <> Cancelled ->
    Appointment.doctor_id a = Appointment.doctor_id b ->
    Appointment.start_time a = Appointment.start_time b -> a = b;
  room_rule : forall a b r,
    In a (Appointments s) -> In b (Appointments s) ->
    Appointment.status a <> Cancelled -> Appointment.status b <> Cancelled ->
    Appointment.room_id a = Some r -> Appointment.room_id b = Some r ->
    Appointment.start_time a = Appointment.start_time b -> a = b;
  references_hold : forall a,
    In a (Appointments s) -> foreign_keys_hold s a = true }.

(** [s'] has the appointments and the audit log of [s] and at least its
    patients, doctors and rooms. *)
Record extends (s s' : store) : Prop := {
  ext_Appointments : Appointments s' = Appointments s;
  ext_AuditLog : AuditLog s' = AuditLog s;
  ext_Patients : forall p, In p (Patients s) -> In p (Patients s');
  ext_Doctors : forall d, In d (Doctors s) -> In d (Doctors s');
  ext_Rooms : forall r, In r (Rooms s) -> In r (Rooms s') }.

(** ** Seed rows that are accounted for *)

(** INSERT OR IGNORE skips [r], and the sequence is not below its id. *)
Definition Patients_settled (r : Patient.row) (s : store) : Prop :=
  negb (gender_check (Patient.gender r))
  || has_patient s (Patient.patient_id r)
  || email_taken s (Patient.email r) = true
  /\ Patient.patient_id r <= seq_Patients (sequence s).

Definition Doctors_settled (r : Doctor.row) (s : store) : Prop :=
  has_doctor s (Doctor.doctor_id r) = true
  /\ Doctor.doctor_id r <= seq_Doctors (sequence s).

Definition Rooms_settled (r : Room.row) (s : store) : Prop :=
  has_room s (Room.room_id r) || room_number_taken s (Room.room_number r) = true
  /\ Room.room_id r <= seq_Rooms (sequence s).

(** ** Stores used as examples *)

Definition slot : string := "2025-08-30 09:00".
Definition clock : string := "2025-08-29 17:45:10".

(** A new database after [--init]. *)
Definition seeded : store := run [InitDb] empty_store.

(** Patient 1 sees doctor 1 in room 1 at [slot]. *)
Definition booked_once : store :=
  run [InitDb; BookAppointment 1 1 slot None (Some 1) "" clock] empty_store.

(** The same store once that appointment has been cancelled. *)
Definition cancelled_once : store :=
  mk_store (Patients booked_once) (Doctors booked_once) (Rooms booked_once)
    [Appointment.mk 1 1 1 (Some 1) slot None (Some EmptyString) Cancelled]
    (AuditLog booked_once) (sequence booked_once).

(** Patient 1 sees doctor 1 and doctor 2 at [slot], in no room. *)
Definition patient_twice : list op :=
  [InitDb;
   BookAppointment 1 1 slot None None "" clock;
   BookAppointment 1 2 slot None None "" clock].

(** The form of /patients/new with a name and every other field left
    blank. *)
Definition name_only : form :=
  [("full_name", "Carol Silva"); ("date_of_birth", ""); ("gender", "");
   ("phone", ""); ("email", "")]%string.

(** The same form with a gender chosen, and the email still blank. *)
Definition name_and_gender (name : string) : form :=
  [("full_name", name); ("date_of_birth", ""); ("gender", "Female");
   ("phone", ""); ("email", "")]%string.

(** A form whose full name is two blanks and a tab. *)
Definition blank_name : form :=
  [("full_name"%string,
    String " " (String " " (String "009" EmptyString)))].

(** ** The per-doctor report *)

(** [COUNT(a.appointment_id)] over the rows the LEFT JOIN pairs with [d]. *)
Definition total_appointments (s : store) (d : Doctor.row) : Z :=
  Z.of_nat (List.length (filter (fun a =>
                                   (Doctor.doctor_id d =? Appointment.doctor_id a)
                                   && not_cancelled a)
                                (Appointments s))).

(** [ORDER BY total_appointments DESC, doctor ASC]. *)
Module ReportOrder <: TotalLeBool.
Definition t := (string * Z)%type.
Definition leb (x y : t) : bool :=
  (snd y <? snd x) || ((snd x =? snd y) && String.leb (fst x) (fst y)).
Theorem leb_total : forall x y, leb x y = true \/ leb y x = true.
Proof.
  intros [n1 c1] [n2 c2]; unfold leb; simpl.
  destruct (Z.ltb_spec c2 c1); [now left|].
  destruct (Z.ltb_spec c1 c2); [now right|].
  assert (c1 = c2) by lia; subst.
  rewrite Z.eqb_refl; simpl.
  apply String.leb_total.
Qed.
End ReportOrder.

Module ReportSort := Sort ReportOrder.

(** One group per doctor ([doctor_id] is the primary key), then the sort.
    The reports route of app.py issues the same query. *)
Definition report_appointments_per_doctor (s : store) : list (string * Z) :=
  ReportSort.sort
    (map (fun d => (Doctor.full_name d, total_appointments s d)) (Doctors s)).

(** Row [x] may come before row [y]: a larger count, or the same count
    and a name that is not after the other, byte by byte. *)
Definition report_before (x y : string * Z) : Prop :=
  snd y < snd x \/ (snd x = snd y /\ String.leb (fst x) (fst y) = true).

(** ** Listings and the other reports *)

(** [ORDER BY]: the rows put in an order that [leb] accepts.  SQL leaves
    the order of rows with equal keys open; the properties below do not
    depend on the one taken here. *)
Fixpoint insert_sorted {A : Type} (leb : A -> A -> bool) (x : A) (l : list A)
    : list A :=
  match l with
  | [] => [x]
  | y :: l' => if leb x y then x :: l else y :: insert_sorted leb x l'
  end.

Definition order_by {A : Type} (leb : A -> A -> bool) (l : list A) : list A :=
  fold_right (insert_sorted leb) [] l.

(** The route /patients: [SELECT * FROM Patients ORDER BY full_name]. *)
Definition patients (s : store) : list Patient.row :=
  order_by (fun x y => String.leb (Patient.full_name x) (Patient.full_name y))
           (Patients s).

(** The route /doctors: [SELECT * FROM Doctors ORDER BY full_name]. *)
Definition doctors (s : store) : list Doctor.row :=
  order_by (fun x y => String.leb (Doctor.full_name x) (Doctor.full_name y))
           (Doctors s).

(** [COALESCE(x, '')]. *)
Definition coalesce (o : option string) : string :=
  match o with
  | Some x => x
  | None => EmptyString
  end.

Module AppointmentView.
Record row := mk {
  appointment_id : Z;
  patient : string;
  doctor : string;
  start_time : string;
  end_time : string;
  status : appointment_status;
  notes : string }.
End AppointmentView.

(** [FROM Appointments a JOIN Patients p ON a.patient_id = p.patient_id
    JOIN Doctors d ON a.doctor_id = d.doctor_id]. *)
Definition appointments_join (s : store) : list AppointmentView.row :=
  flat_map (fun a =>
    flat_map (fun p =>
      map (fun d =>
             AppointmentView.mk (Appointment.appointment_id a)
               (Patient.full_name p) (Doctor.full_name d)
               (Appointment.start_time a)
               (coalesce (Appointment.end_time a))
               (Appointment.status a)
               (coalesce (Appointment.notes a)))
          (filter (fun d => Appointment.doctor_id a =? Doctor.doctor_id d)
                  (Doctors s)))
      (filter (fun p => Appointment.patient_id a =? Patient.patient_id p)
              (Patients s)))
    (Appointments s).

(** The route /appointments: the join, [ORDER BY a.start_time DESC]. *)
Definition appointments (s : store) : list AppointmentView.row :=
  order_by (fun x y => String.leb (AppointmentView.start_time y)
                                  (AppointmentView.start_time x))
           (appointments_join s).

(** The three scalar subqueries of [home] and [reports]. *)
Record counts := mk_counts {
  count_patients : Z;
  count_doctors : Z;
  count_appts : Z }.

Definition global_counts (s : store) : counts :=
  mk_counts (Z.of_nat (List.length (Patients s)))
            (Z.of_nat (List.length (Doctors s)))
            (Z.of_nat (List.length (filter not_cancelled (Appointments s)))).

(** The route /: [ensure_db] first, then the two lists and the counts. *)
Definition home (s : store)
    : store * (list Doctor.row * list Patient.row * counts) :=
  let s' := ensure_db s in
  (s', (doctors s', patients s', global_counts s')).

(** [COUNT(a.appointment_id)] of the LEFT JOIN on [a.room_id = r.room_id
    AND a.status != 'Cancelled']. *)
Definition room_total (s : store) (r : Room.row) : Z :=
  Z.of_nat (List.length (filter (fun a => room_is (Room.room_id r) a
                                          && not_cancelled a)
                                (Appointments s))).

(** The third query of [reports]: [ORDER BY total DESC, r.room_number
    LIMIT 10]. *)
Definition by_room (s : store) : list (string * Z) :=
  firstn 10 (ReportSort.sort
               (map (fun r => (Room.room_number r, room_total s r)) (Rooms s))).

(** What [reports] hands to its template. *)
Record reports_data := mk_reports {
  per_doc : list (string * Z);
  report_counts : counts;
  chart_labels : list string;
  chart_values : list Z;
  room_labels : list string;
  room_values : list Z }.

Definition reports (s : store) : reports_data :=
  let per_doc := report_appointments_per_doctor s in
  let by_room := by_room s in
  mk_reports per_doc (global_counts s)
    (map fst per_doc) (map snd per_doc) (map fst by_room) (map snd by_room).

(** A byte of the form 10xxxxxx. *)
Definition continuation (c : ascii) : bool :=
  let n := N_of_ascii c in ((128 <=? n) && (n <? 192))%N.

(** A byte that opens a multi-byte character for SQLite: 0xC0 or more. *)
Definition lead (c : ascii) : bool := (192 <=? N_of_ascii c)%N.

(** The first [n] characters of a text, as [substr] counts them: a byte,
    and when that byte is a lead byte the continuation bytes after it.
    The text ends at a NUL byte.  [inside] tells that the last byte taken
    opened a multi-byte character. *)
Fixpoint first_chars (n : nat) (inside : bool) (l : list ascii) : list ascii :=
  match l with
  | [] => []
  | c :: l' =>
      if inside && continuation c then c :: first_chars n true l'
      else
        match n with
        | O => []
        | S n' =>
            if (N_of_ascii c =? 0)%N then []
            else c :: first_chars n' (lead c) l'
        end
  end.

(** [substr(x, 1, 10)] on a text. *)
Definition substr_1_10 (x : string) : string :=
  string_of_list_ascii (first_chars 10 false (list_ascii_of_string x)).

(** [COUNT(a.appointment_id)] of the LEFT JOIN on [a.room_id = r.room_id
    AND substr(a.start_time, 1, 10) = ? AND a.status != 'Cancelled']. *)
Definition daily_total (s : store) (date_prefix : string) (r : Room.row) : Z :=
  Z.of_nat (List.length
              (filter (fun a => room_is (Room.room_id r) a
                                && str_eqb (substr_1_10 (Appointment.start_time a))
                                           date_prefix
                                && not_cancelled a)
                      (Appointments s))).

(** [report_daily_utilization]: one group per room, [ORDER BY
    r.room_number]. *)
Definition report_daily_utilization (date_prefix : string) (s : store)
    : list (string * Z) :=
  order_by (fun x y => String.leb (fst x) (fst y))
           (map (fun r => (Room.room_number r, daily_total s date_prefix r))
                (Rooms s)).

(** ** The keys of the three parent tables *)

(** Primary keys and UNIQUE columns: what the constraints of Patients,
    Doctors and Rooms keep. *)
Record keyed (s : store) : Prop := {
  patient_ids_unique : NoDup (map Patient.patient_id (Patients s));
  doctor_ids_unique : NoDup (map Doctor.doctor_id (Doctors s));
  room_ids_unique : NoDup (map Room.room_id (Rooms s));
  emails_unique : forall p q e,
    In p (Patients s) -> In q (Patients s) ->
    Patient.email p = Some e -> Patient.email q = Some e -> p = q;
  room_numbers_unique : forall r q,
    In r (Rooms s) -> In q (Rooms s) ->
    Room.room_number r = Room.room_number q -> r = q }.

(** No appointment has an id above the sequence of its table. *)
Definition sequence_covers (s : store) : Prop :=
  forall a, In a (Appointments s) ->
            Appointment.appointment_id a <= seq_Appointments (sequence s).

(** The sum of the counts of a report. *)
Definition report_total (rows : list (string * Z)) : Z :=
  fold_right (fun x acc => snd x + acc) 0 rows.

(** A text of bytes below 0x80, none of them NUL. *)
Definition plain_ascii (x : string) : Prop :=
  Forall (fun c => (0 < N_of_ascii c < 128)%N) (list_ascii_of_string x).

(** The number of bytes of a text that are not continuation bytes. *)
Definition openers (l : list ascii) : nat :=
  List.length (filter (fun c => negb (continuation c)) l).

(** ** Counting the rows of a LEFT JOIN, group by group *)

Section Joins.
Context {P A : Type} (pkey : P -> Z) (fk : A -> option Z) (sel : A -> bool).

(** The ON clause [a.fk = p.pkey]; it is not true of a NULL key. *)
Definition joins (p : P) (a : A) : bool :=
  match fk a with
  | Some k => k =? pkey p
  | None => false
  end.

(** The COUNT of the group of [p]. *)
Definition join_count (rows : list A) (p : P) : Z :=
  Z.of_nat (List.length (filter (fun a => joins p a && sel a) rows)).

(** The counts of all the groups, added. *)
Definition join_sum (ps : list P) (rows : list A) : Z :=
  fold_right (fun p acc => join_count rows p + acc) 0 ps.

End Joins.

(** * Properties *)

(** ** Tables and row ids *)

Section Tables.
Context {R : Type} (key : R -> Z).

Lemma insert_row_In (r x : R) (t : list R) :
  In x (insert_row key r t) <-> x = r \/ In x t.
Proof.
  induction t as [|y t IH]; simpl.
  - intuition.
  - destruct (key r <? key y); simpl; rewrite ?IH; intuition.
Qed.

Lemma insert_row_perm (r : R) (t : list R) :
  Permutation (r :: t) (insert_row key r t).
Proof.
  induction t as [|y t IH]; simpl; [reflexivity|].
  destruct (key r <? key y); [reflexivity|].
  rewrite perm_swap. now constructor.
Qed.

Lemma insert_row_length (r : R) (t : list R) :
  List.length (insert_row key r t) = S (List.length t).
Proof.
  symmetry. apply (Permutation_length (insert_row_perm r t)).
Qed.

(** A row whose key is above all the others goes last. *)
Lemma insert_row_last (r : R) (t : list R) :
  (forall x, In x t -> key x < key r) -> insert_row key r t = t ++ [r].
Proof.
  induction t as [|y t IH]; simpl; intros H; [reflexivity|].
  destruct (Z.ltb_spec (key r) (key y)) as [L|L].
  - specialize (H y (or_introl eq_refl)). lia.
  - f_equal. apply IH. intros x Hx. apply H. now right.
Qed.

Lemma insert_row_NoDup (r : R) (t : list R) :
  ~ In (key r) (map key t) -> NoDup (map key t) ->
  NoDup (map key (insert_row key r t)).
Proof.
  intros Hn Hd.
  apply (Permutation_NoDup (l := map key (r :: t))).
  - apply Permutation_map, insert_row_perm.
  - simpl. now constructor.
Qed.

End Tables.

Lemma largest_rowid_bound (ids : list Z) (x : Z) :
  In x ids -> exists v, largest_rowid ids = Some v /\ x <= v.
Proof.
  induction ids as [|y ids IH]; simpl; [tauto|].
  intros [->|H].
  - destruct (largest_rowid ids) as [v|]; eexists; split; eauto; lia.
  - destruct (IH H) as (v & -> & Hv). eexists; split; eauto; lia.
Qed.

(** AUTOINCREMENT never hands out a rowid the table holds. *)
Lemma new_rowid_above (seq : Z) (ids : list Z) (x : Z) :
  In x ids -> x < new_rowid seq ids.
Proof.
  intros H. destruct (largest_rowid_bound ids x H) as (v & E & L).
  unfold new_rowid. rewrite E. lia.
Qed.

Lemma new_rowid_above_seq (seq : Z) (ids : list Z) : seq < new_rowid seq ids.
Proof.
  unfold new_rowid. destruct (largest_rowid ids); lia.
Qed.

Lemma new_rowid_fresh (seq : Z) (ids : list Z) : ~ In (new_rowid seq ids) ids.
Proof.
  intros H. apply new_rowid_above with (seq := seq) in H. lia.
Qed.

Lemma str_eqb_eq (a b : string) : str_eqb a b = true <-> a = b.
Proof. apply String.eqb_eq. Qed.

Lemma status_eqb_eq (a b : appointment_status) : status_eqb a b = true <-> a = b.
Proof. destruct a, b; simpl; split; congruence. Qed.

Lemma not_cancelled_iff (a : Appointment.row) :
  not_cancelled a = true <-> Appointment.status a <> Cancelled.
Proof.
  unfold not_cancelled. rewrite negb_true_iff.
  destruct (status_eqb (Appointment.status a) Cancelled) eqn:E.
  - apply status_eqb_eq in E. split; [discriminate|congruence].
  - split; [|reflexivity]. intros _ H. apply status_eqb_eq in H. congruence.
Qed.

(** ** What the two BEFORE triggers look for *)

Lemma trg_no_double_book_doctor_false (s : store) (d : Z) (t : string) :
  trg_no_double_book_doctor s (Integer d) t = false <->
  forall a, In a (Appointments s) ->
            Appointment.doctor_id a = d -> Appointment.start_time a = t ->
            Appointment.status a = Cancelled.
Proof.
  unfold trg_no_double_book_doctor. split.
  - intros H a Ha Hd Ht.
    destruct (status_eqb (Appointment.status a) Cancelled) eqn:E;
      [now apply status_eqb_eq|].
    assert (X : existsb (fun a => value_eqb (Integer d) (Appointment.doctor_id a)
                && str_eqb (Appointment.start_time a) t && not_cancelled a)
                (Appointments s) = true).
    { apply existsb_exists. exists a. split; [assumption|].
      unfold not_cancelled. rewrite E. simpl. subst.
      rewrite Z.eqb_refl. unfold str_eqb. now rewrite String.eqb_refl. }
    congruence.
  - intros H. apply not_true_is_false. intros X.
    apply existsb_exists in X. destruct X as (a & Ha & X).
    apply andb_true_iff in X. destruct X as (X & Hn).
    apply andb_true_iff in X. destruct X as (Hd & Ht).
    simpl in Hd. apply Z.eqb_eq in Hd. apply str_eqb_eq in Ht.
    apply not_cancelled_iff in Hn. apply Hn. apply H; auto.
Qed.

Lemma trg_no_double_book_room_false (s : store) (r : Z) (t : string) :
  trg_no_double_book_room s (Some (Integer r)) t = false <->
  forall a, In a (Appointments s) ->
            Appointment.room_id a = Some r -> Appointment.start_time a = t ->
            Appointment.status a = Cancelled.
Proof.
  unfold trg_no_double_book_room. split.
  - intros H a Ha Hr Ht.
    destruct (status_eqb (Appointment.status a) Cancelled) eqn:E;
      [now apply status_eqb_eq|].
    assert (X : existsb (fun a => match Appointment.room_id a with
                                  | Some x => value_eqb (Integer r) x
                                  | None => false
                                  end
                && str_eqb (Appointment.start_time a) t && not_cancelled a)
                (Appointments s) = true).
    { apply existsb_exists. exists a. split; [assumption|].
      unfold not_cancelled. rewrite E, Hr. simpl. subst.
      rewrite Z.eqb_refl. unfold str_eqb. now rewrite String.eqb_refl. }
    congruence.
  - intros H. apply not_true_is_false. intros X.
    apply existsb_exists in X. destruct X as (a & Ha & X).
    apply andb_true_iff in X. destruct X as (X & Hn).
    apply andb_true_iff in X. destruct X as (Hr & Ht).
    destruct (Appointment.room_id a) as [x|] eqn:Er; [|discriminate].
    simpl in Hr. apply Z.eqb_eq in Hr. apply str_eqb_eq in Ht.
    apply not_cancelled_iff in Hn. apply Hn. apply H; auto. congruence.
Qed.

(** ** A successful INSERT INTO Appointments, taken apart *)

Lemma insert_Appointments_Ok (p d : value) (r : option value) (t : string)
    (e n : option string) (now : string) (s s' : store) (id : Z) :
  insert_Appointments p d r t e n now s = Ok (id, s') ->
  exists pz dz rz,
    p = Integer pz /\ d = Integer dz /\ r = option_map Integer rz /\
    trg_no_double_book_doctor s d t = false /\
    trg_no_double_book_room s r t = false /\
    id = new_rowid (seq_Appointments (sequence s))
                   (map Appointment.appointment_id (Appointments s)) /\
    foreign_keys_hold s (Appointment.mk id pz dz rz t e n Booked) = true /\
    s' = trg_appointments_insert_log (Appointment.mk id pz dz rz t e n Booked) now
           (with_Appointments
              (insert_row Appointment.appointment_id
                 (Appointment.mk id pz dz rz t e n Booked) (Appointments s))
              id s).
Proof.
  unfold insert_Appointments.
  destruct (trg_no_double_book_room s r t) eqn:Tr; [discriminate|].
  destruct (trg_no_double_book_doctor s d t) eqn:Td; [discriminate|].
  destruct p as [pz|]; [|discriminate].
  destruct d as [dz|]; [|discriminate].
  destruct r as [[rz|]|]; [| discriminate |].
  - match goal with
    | |- context [if ?c then _ else _] => destruct c eqn:F; [|discriminate]
    end.
    intros H. injection H as <- <-.
    exists pz, dz, (Some rz). repeat split; auto.
  - match goal with
    | |- context [if ?c then _ else _] => destruct c eqn:F; [|discriminate]
    end.
    intros H. injection H as <- <-.
    exists pz, dz, None. repeat split; auto.
Qed.

(** A statement that fails changes nothing. *)
Lemma execute_Error {A : Type} (st : statement A) (s : store) (e : exn) :
  snd (execute st s) = Error e -> fst (execute st s) = s.
Proof.
  unfold execute. destruct (st s) as [[a s']|e']; simpl; [discriminate|reflexivity].
Qed.

Lemma execute_cases {A : Type} (st : statement A) (s : store) :
  (exists a s', st s = Ok (a, s') /\ execute st s = (s', Ok a))
  \/ (exists e, st s = Error e /\ execute st s = (s, Error e)).
Proof.
  unfold execute. destruct (st s) as [[a s']|e]; [left|right]; eauto.
Qed.

(** ** Parent rows *)

Lemma has_patient_iff (s : store) (x : Z) :
  has_patient s x = true <->
  exists p, In p (Patients s) /\ Patient.patient_id p = x.
Proof.
  unfold has_patient. rewrite existsb_exists.
  split; intros (p & H1 & H2); exists p; split; auto; now apply Z.eqb_eq.
Qed.

Lemma has_doctor_iff (s : store) (x : Z) :
  has_doctor s x = true <->
  exists d, In d (Doctors s) /\ Doctor.doctor_id d = x.
Proof.
  unfold has_doctor. rewrite existsb_exists.
  split; intros (p & H1 & H2); exists p; split; auto; now apply Z.eqb_eq.
Qed.

Lemma has_room_iff (s : store) (x : Z) :
  has_room s x = true <->
  exists r, In r (Rooms s) /\ Room.room_id r = x.
Proof.
  unfold has_room. rewrite existsb_exists.
  split; intros (p & H1 & H2); exists p; split; auto; now apply Z.eqb_eq.
Qed.

Lemma extends_refl (s : store) : extends s s.
Proof. constructor; auto. Qed.

Lemma extends_trans (s1 s2 s3 : store) :
  extends s1 s2 -> extends s2 s3 -> extends s1 s3.
Proof.
  intros [A1 B1 C1 D1 E1] [A2 B2 C2 D2 E2].
  constructor; try congruence; auto.
Qed.

Lemma foreign_keys_hold_extends (s s' : store) (a : Appointment.row) :
  extends s s' -> foreign_keys_hold s a = true -> foreign_keys_hold s' a = true.
Proof.
  intros [_ _ HP HD HR]. unfold foreign_keys_hold.
  rewrite !andb_true_iff. intros [[Hp Hd] Hr]. repeat split.
  - apply has_patient_iff in Hp. destruct Hp as (p & ? & ?).
    apply has_patient_iff. eauto.
  - apply has_doctor_iff in Hd. destruct Hd as (p & ? & ?).
    apply has_doctor_iff. eauto.
  - destruct (Appointment.room_id a); [|reflexivity].
    apply has_room_iff in Hr. destruct Hr as (p & ? & ?).
    apply has_room_iff. eauto.
Qed.

Lemma insert_or_ignore_Patients_extends (r : Patient.row) (s : store) :
  extends s (insert_or_ignore_Patients r s).
Proof.
  unfold insert_or_ignore_Patients.
  destruct (_ || _ || _); constructor; simpl; auto.
  intros p Hp. apply insert_row_In. now right.
Qed.

Lemma insert_or_ignore_Doctors_extends (r : Doctor.row) (s : store) :
  extends s (insert_or_ignore_Doctors r s).
Proof.
  unfold insert_or_ignore_Doctors.
  destruct (has_doctor _ _); constructor; simpl; auto.
  intros p Hp. apply insert_row_In. now right.
Qed.

Lemma insert_or_ignore_Rooms_extends (r : Room.row) (s : store) :
  extends s (insert_or_ignore_Rooms r s).
Proof.
  unfold insert_or_ignore_Rooms.
  destruct (_ || _); constructor; simpl; auto.
  intros p Hp. apply insert_row_In. now right.
Qed.

Lemma fold_left_extends {R : Type} (one : R -> store -> store) (rows : list R) :
  (forall r s, extends s (one r s)) ->
  forall s, extends s (fold_left (fun acc r => one r acc) rows s).
Proof.
  intros H. induction rows as [|r rows IH]; simpl; intros s.
  - apply extends_refl.
  - eapply extends_trans; [apply H | apply IH].
Qed.

Lemma init_db_extends (s : store) : extends s (fst (init_db s)).
Proof.
  change (fst (init_db s))
    with (fold_left (fun acc r => insert_or_ignore_Rooms r acc) seed_Rooms
            (fold_left (fun acc r => insert_or_ignore_Doctors r acc) seed_Doctors
               (fold_left (fun acc r => insert_or_ignore_Patients r acc)
                  seed_Patients s))).
  eapply extends_trans;
    [apply (fold_left_extends insert_or_ignore_Patients seed_Patients
              insert_or_ignore_Patients_extends)|].
  eapply extends_trans;
    [apply (fold_left_extends insert_or_ignore_Doctors seed_Doctors
              insert_or_ignore_Doctors_extends)|].
  apply (fold_left_extends insert_or_ignore_Rooms seed_Rooms
           insert_or_ignore_Rooms_extends).
Qed.

Lemma insert_Patients_extends (n : string) (b g ph em : option string)
    (s : store) : extends s (fst (execute (insert_Patients n b g ph em) s)).
Proof.
  unfold execute, insert_Patients.
  destruct (negb (gender_check g)); simpl; [apply extends_refl|].
  destruct (email_taken s em); simpl; [apply extends_refl|].
  constructor; simpl; auto.
  intros p Hp. apply insert_row_In. now right.
Qed.

Lemma insert_Doctors_extends (n sp : string) (s : store) :
  extends s (fst (execute (insert_Doctors n sp) s)).
Proof.
  unfold execute, insert_Doctors; simpl.
  constructor; simpl; auto.
  intros p Hp. apply insert_row_In. now right.
Qed.

Lemma insert_Rooms_extends (n ty : string) (s : store) :
  extends s (fst (execute (insert_Rooms n ty) s)).
Proof.
  unfold execute, insert_Rooms.
  destruct (room_number_taken s n); simpl; [apply extends_refl|].
  constructor; simpl; auto.
  intros p Hp. apply insert_row_In. now right.
Qed.

Lemma patient_new_extends (m : http_method) (f : form) (s : store) :
  extends s (fst (patient_new m f s)).
Proof.
  unfold patient_new. destruct m; simpl; [apply extends_refl|].
  destruct (negb (truthy _)); simpl; [apply extends_refl|].
  match goal with
  | |- context [execute ?st s] =>
      pose proof (insert_Patients_extends
                    (strip (form_get_or f "full_name" ""))
                    (Some (strip (form_get_or f "date_of_birth" "")))
                    (Some (strip (form_get_or f "gender" "")))
                    (Some (strip (form_get_or f "phone" "")))
                    (Some (strip (form_get_or f "email" ""))) s) as H;
      destruct (execute st s) as [s' [a|e]]; exact H
  end.
Qed.

Lemma doctor_new_extends (m : http_method) (f : form) (s : store) :
  extends s (fst (doctor_new m f s)).
Proof.
  unfold doctor_new. destruct m; simpl; [apply extends_refl|].
  destruct (_ || _); simpl; [apply extends_refl|].
  constructor; simpl; auto.
  intros p Hp. apply insert_row_In. now right.
Qed.

(** ** The invariants of the store *)

Lemma consistent_empty : consistent empty_store.
Proof.
  constructor; simpl; try constructor; intros; contradiction.
Qed.

Lemma consistent_extends (s s' : store) :
  extends s s' -> consistent s -> consistent s'.
Proof.
  intros E [U D R F]. pose proof (ext_Appointments _ _ E) as EA.
  constructor; rewrite ?EA; auto.
  intros a Ha. apply (foreign_keys_hold_extends s s' a E). auto.
Qed.

Lemma trg_appointments_insert_log_tables (new : Appointment.row) (now : string)
    (s : store) :
  let s' := trg_appointments_insert_log new now s in
  Patients s' = Patients s /\ Doctors s' = Doctors s /\ Rooms s' = Rooms s
  /\ Appointments s' = Appointments s.
Proof. simpl. auto. Qed.

Lemma insert_Appointments_consistent (p d : value) (r : option value)
    (t : string) (e n : option string) (now : string) (s s' : store) (id : Z) :
  insert_Appointments p d r t e n now s = Ok (id, s') ->
  consistent s -> consistent s'.
Proof.
  intros H [U D R F].
  apply insert_Appointments_Ok in H.
  destruct H as (pz & dz & rz & -> & -> & -> & Td & Tr & Hid & Hfk & ->).
  set (new := Appointment.mk id pz dz rz t e n Booked) in *.
  rewrite trg_no_double_book_doctor_false in Td.
  assert (Tr' : forall x a, rz = Some x -> In a (Appointments s) ->
                  Appointment.room_id a = Some x ->
                  Appointment.start_time a = t ->
                  Appointment.status a = Cancelled).
  { intros x a -> . simpl in Tr.
    now apply (trg_no_double_book_room_false s x t). }
  constructor; simpl.
  - apply insert_row_NoDup; [|assumption].
    simpl. rewrite Hid. apply new_rowid_fresh.
  - intros a b Ha Hb Sa Sb Ed Et.
    apply insert_row_In in Ha. apply insert_row_In in Hb.
    destruct Ha as [->|Ha], Hb as [->|Hb].
    + reflexivity.
    + exfalso. apply Sb. apply Td; auto.
    + exfalso. apply Sa. apply Td; auto.
    + eapply D; eauto.
  - intros a b x Ha Hb Sa Sb Ra Rb Et.
    apply insert_row_In in Ha. apply insert_row_In in Hb.
    destruct Ha as [->|Ha], Hb as [->|Hb].
    + reflexivity.
    + exfalso. apply Sb. apply (Tr' x b); auto.
    + exfalso. apply Sa. apply (Tr' x a); auto.
    + eapply R; eauto.
  - intros a Ha. apply insert_row_In in Ha.
    destruct Ha as [->|Ha]; [exact Hfk|].
    apply (F a Ha).
Qed.

Lemma NoDup_map_filter {A B : Type} (f : A -> B) (q : A -> bool) (l : list A) :
  NoDup (map f l) -> NoDup (map f (filter q l)).
Proof.
  induction l as [|x l IH]; simpl; intros H; [constructor|].
  inversion H as [|? ? Hx Hl]; subst.
  destruct (q x); simpl; auto.
  constructor; auto.
  intros Hin. apply Hx. apply in_map_iff in Hin.
  destruct Hin as (y & Ey & Hy). apply filter_In in Hy.
  apply in_map_iff. exists y. tauto.
Qed.

Lemma delete_Patients_consistent (id : Z) (s : store) :
  consistent s -> consistent (delete_Patients id s).
Proof.
  intros [U D R F]. unfold delete_Patients.
  destruct (has_patient s id); [|now constructor].
  constructor; simpl.
  - now apply NoDup_map_filter.
  - intros a b Ha Hb. apply filter_In in Ha, Hb. apply D; tauto.
  - intros a b r Ha Hb. apply filter_In in Ha, Hb. apply R; tauto.
  - intros a Ha. apply filter_In in Ha. destruct Ha as [Ha Hn].
    specialize (F a Ha). unfold foreign_keys_hold in *.
    rewrite !andb_true_iff in *. destruct F as [[Hp Hd] Hr].
    repeat split; auto.
    apply has_patient_iff in Hp. destruct Hp as (p & Hp & Ep).
    apply has_patient_iff. exists p. split; [|assumption]. simpl.
    apply filter_In. split; [assumption|]. now rewrite Ep.
Qed.

Lemma delete_Doctors_consistent (id : Z) (s : store) :
  consistent s -> consistent (delete_Doctors id s).
Proof.
  intros [U D R F]. unfold delete_Doctors.
  destruct (has_doctor s id); [|now constructor].
  constructor; simpl.
  - now apply NoDup_map_filter.
  - intros a b Ha Hb. apply filter_In in Ha, Hb. apply D; tauto.
  - intros a b r Ha Hb. apply filter_In in Ha, Hb. apply R; tauto.
  - intros a Ha. apply filter_In in Ha. destruct Ha as [Ha Hn].
    specialize (F a Ha). unfold foreign_keys_hold in *.
    rewrite !andb_true_iff in *. destruct F as [[Hp Hd] Hr].
    repeat split; auto.
    apply has_doctor_iff in Hd. destruct Hd as (p & Hd & Ep).
    apply has_doctor_iff. exists p. split; [|assumption]. simpl.
    apply filter_In. split; [assumption|]. now rewrite Ep.
Qed.

(** What ON DELETE SET NULL leaves of a row. *)
Lemma set_null_room_fields (id : Z) (a : Appointment.row) :
  let b := set_null_room id a in
  Appointment.appointment_id b = Appointment.appointment_id a
  /\ Appointment.patient_id b = Appointment.patient_id a
  /\ Appointment.doctor_id b = Appointment.doctor_id a
  /\ Appointment.start_time b = Appointment.start_time a
  /\ Appointment.end_time b = Appointment.end_time a
  /\ Appointment.notes b = Appointment.notes a
  /\ Appointment.status b = Appointment.status a
  /\ (Appointment.room_id a = Some id -> Appointment.room_id b = None)
  /\ (Appointment.room_id a <> Some id -> b = a).
Proof.
  unfold set_null_room, room_is.
  destruct (Appointment.room_id a) as [r|] eqn:E.
  - destruct (Z.eqb_spec r id); simpl; repeat split; auto; congruence.
  - simpl. repeat split; auto; congruence.
Qed.

Lemma set_null_room_keeps (id r : Z) (a : Appointment.row) :
  Appointment.room_id (set_null_room id a) = Some r ->
  Appointment.room_id a = Some r /\ r <> id.
Proof.
  unfold set_null_room, room_is.
  destruct (Appointment.room_id a) as [x|] eqn:E.
  - destruct (Z.eqb_spec x id); simpl; [discriminate|].
    rewrite E. intros H; injection H as ->. auto.
  - rewrite E. discriminate.
Qed.

Lemma delete_Rooms_consistent (id : Z) (s : store) :
  consistent s -> consistent (delete_Rooms id s).
Proof.
  intros [U D R F]. unfold delete_Rooms.
  destruct (has_room s id); [|now constructor].
  assert (P : forall b, In b (map (set_null_room id) (Appointments s)) ->
            exists a, In a (Appointments s) /\ b = set_null_room id a).
  { intros b Hb. apply in_map_iff in Hb. destruct Hb as (a & <- & Ha). eauto. }
  constructor; simpl.
  - rewrite map_map.
    erewrite map_ext; [exact U|].
    intros a. apply (set_null_room_fields id a).
  - intros a' b' Ha Hb Sa Sb Ed Et.
    destruct (P _ Ha) as (a & Ia & ->). destruct (P _ Hb) as (b & Ib & ->).
    destruct (set_null_room_fields id a) as (_ & _ & Da & Ta & _ & _ & Sta & _).
    destruct (set_null_room_fields id b) as (_ & _ & Db & Tb & _ & _ & Stb & _).
    f_equal. apply (D a b); congruence.
  - intros a' b' r Ha Hb Sa Sb Ra Rb Et.
    destruct (P _ Ha) as (a & Ia & ->). destruct (P _ Hb) as (b & Ib & ->).
    destruct (set_null_room_fields id a) as (_ & _ & Da & Ta & _ & _ & Sta & _).
    destruct (set_null_room_fields id b) as (_ & _ & Db & Tb & _ & _ & Stb & _).
    apply set_null_room_keeps in Ra, Rb.
    f_equal. apply (R a b r); try tauto; congruence.
  - intros a' Ha. destruct (P _ Ha) as (a & Ia & ->).
    specialize (F a Ia). unfold foreign_keys_hold in *.
    destruct (set_null_room_fields id a) as (_ & Pa & Da & _).
    rewrite Pa, Da.
    rewrite !andb_true_iff in *. destruct F as [[Hp Hd] Hr].
    repeat split; auto.
    destruct (Appointment.room_id (set_null_room id a)) as [r|] eqn:E;
      [|reflexivity].
    apply set_null_room_keeps in E. destruct E as [E Hne].
    rewrite E in Hr. apply has_room_iff in Hr. destruct Hr as (x & Hx & Ex).
    apply has_room_iff. exists x. split; [|assumption]. simpl.
    apply filter_In. split; [assumption|].
    apply negb_true_iff. apply Z.eqb_neq. congruence.
Qed.

Lemma execute_insert_Appointments_consistent (p d : value) (r : option value)
    (t : string) (e n : option string) (now : string) (s : store) :
  consistent s ->
  consistent (fst (execute (insert_Appointments p d r t e n now) s)).
Proof.
  intros C.
  destruct (execute_cases (insert_Appointments p d r t e n now) s)
    as [(a & s' & H & ->)|(x & H & ->)]; simpl; [|assumption].
  eapply insert_Appointments_consistent; eauto.
Qed.

Lemma book_store (aff : string -> value) (f : form) (now : string) (s : store) :
  fst (book aff f now s)
  = match book_insert aff f now with
    | Some st => fst (execute st s)
    | None => s
    end.
Proof.
  unfold book. destruct (book_insert aff f now) as [st|]; [|reflexivity].
  destruct (execute st s) as [s' [a|e]]; reflexivity.
Qed.

Lemma book_insert_shape (aff : string -> value) (f : form) (now : string)
    (st : statement Z) :
  book_insert aff f now = Some st ->
  exists p d r t e n, st = insert_Appointments p d r t e n now.
Proof.
  unfold book_insert.
  destruct (or_None (form_get f "patient_id")); [|discriminate].
  destruct (or_None (form_get f "doctor_id")); [|discriminate].
  destruct (or_None (form_get f "start_time")); [|discriminate].
  intros H; injection H as <-. do 6 eexists. reflexivity.
Qed.

Lemma step_consistent (o : op) (s : store) :
  consistent s -> consistent (step o s).
Proof.
  intros C. destruct o; simpl.
  - eapply consistent_extends; [apply init_db_extends|assumption].
  - now apply execute_insert_Appointments_consistent.
  - rewrite book_store.
    destruct (book_insert integer_affinity f now) as [st|] eqn:E; [|assumption].
    apply book_insert_shape in E. destruct E as (p & d & r & t & e & n & ->).
    now apply execute_insert_Appointments_consistent.
  - eapply consistent_extends; [apply patient_new_extends|assumption].
  - now apply delete_Patients_consistent.
  - eapply consistent_extends; [apply doctor_new_extends|assumption].
  - now apply delete_Doctors_consistent.
  - eapply consistent_extends; [apply insert_Rooms_extends|assumption].
  - now apply delete_Rooms_consistent.
Qed.

Lemma run_consistent (ops : list op) (s : store) :
  consistent s -> consistent (run ops s).
Proof.
  revert s. induction ops as [|o ops IH]; simpl; intros s C; [assumption|].
  apply IH. now apply step_consistent.
Qed.

(** ** Conflict prevention over histories *)

(** C1. In every store a history of the operations leads to, starting from
    the empty database, each appointment has its own id, two appointments
    that are not cancelled and have the same doctor and start time are one
    and the same row, and so are two that are not cancelled and have the
    same non-NULL room and start time. *)
Theorem no_double_booking (ops : list op) :
  let s := run ops empty_store in
  NoDup (map Appointment.appointment_id (Appointments s))
  /\ (forall a b,
        In a (Appointments s) -> In b (Appointments s) ->
        Appointment.status a <> Cancelled -> Appointment.status b <> Cancelled ->
        Appointment.doctor_id a = Appointment.doctor_id b ->
        Appointment.start_time a = Appointment.start_time b ->
        a = b)
  /\ (forall a b r,
        In a (Appointments s) -> In b (Appointments s) ->
        Appointment.status a <> Cancelled -> Appointment.status b <> Cancelled ->
        Appointment.room_id a = Some r -> Appointment.room_id b = Some r ->
        Appointment.start_time a = Appointment.start_time b ->
        a = b).
Proof.
  destruct (run_consistent ops empty_store consistent_empty) as [U D R _].
  simpl. repeat split; assumption.
Qed.

(** ** The failures of [book_appointment] *)

Lemma trg_no_double_book_doctor_true (s : store) (d : Z) (t : string) :
  trg_no_double_book_doctor s (Integer d) t = true <-> doctor_conflict s d t.
Proof.
  unfold trg_no_double_book_doctor, doctor_conflict.
  rewrite existsb_exists. split.
  - intros (a & Ha & X). exists a.
    rewrite !andb_true_iff in X. destruct X as [[Hd Ht] Hn]. simpl in Hd.
    apply Z.eqb_eq in Hd. apply str_eqb_eq in Ht. apply not_cancelled_iff in Hn.
    auto.
  - intros (a & Ha & Hd & Ht & Hn). exists a. split; [assumption|].
    rewrite !andb_true_iff. simpl. repeat split.
    + apply Z.eqb_eq. auto.
    + now apply str_eqb_eq.
    + now apply not_cancelled_iff.
Qed.

Lemma trg_no_double_book_room_true (s : store) (r : option Z) (t : string) :
  trg_no_double_book_room s (option_map Integer r) t = true <-> room_conflict s r t.
Proof.
  unfold trg_no_double_book_room, room_conflict.
  destruct r as [x|]; simpl.
  - rewrite existsb_exists. split.
    + intros (a & Ha & X). exists a, x.
      rewrite !andb_true_iff in X. destruct X as [[Hr Ht] Hn].
      destruct (Appointment.room_id a) as [y|]; [|discriminate]. simpl in Hr.
      apply Z.eqb_eq in Hr. apply str_eqb_eq in Ht. apply not_cancelled_iff in Hn.
      subst. auto.
    + intros (a & y & Ey & Ha & Hr & Ht & Hn). injection Ey as <-.
      exists a. split; [assumption|].
      rewrite !andb_true_iff, Hr. simpl. repeat split.
      * apply Z.eqb_refl.
      * now apply str_eqb_eq.
      * now apply not_cancelled_iff.
  - split; [discriminate|]. intros (a & y & Ey & _). discriminate.
Qed.

Lemma foreign_keys_after_log (new : Appointment.row) (now : string) (s : store)
    (l : list Appointment.row) (q : Z) :
  foreign_keys_hold (trg_appointments_insert_log new now (with_Appointments l q s)) new
  = foreign_keys_hold s new.
Proof. reflexivity. Qed.

(** C2, amended.  For ids that SQLite can hold, [book_appointment] looks
    at the two conflict rules before the foreign keys, the room rule first.
    When the room rule rejects the booking it raises the IntegrityError
    with the message of the room trigger; when the room rule lets it pass
    and the doctor rule rejects it, the one with the message of the doctor
    trigger; both also when the patient does not exist.  When no rule
    rejects it and the patient or the doctor does not exist, it raises the
    foreign-key IntegrityError.  The three errors differ, and a call that
    raises leaves the store as it was. *)
Theorem book_appointment_failures (s : store) (p d : Z) (t : string)
    (e : option string) (r : option Z) (n now : string) :
  sqlite_integer p -> sqlite_integer d ->
  (forall x, r = Some x -> sqlite_integer x) ->
  let out := book_appointment p d t e r n now s in
  (room_conflict s r t ->
   snd out = Error (IntegrityError (TriggerAbort room_message)))
  /\ (~ room_conflict s r t -> doctor_conflict s d t ->
      snd out = Error (IntegrityError (TriggerAbort doctor_message)))
  /\ (~ doctor_conflict s d t -> ~ room_conflict s r t ->
      has_patient s p = false \/ has_doctor s d = false ->
      snd out = Error (IntegrityError ForeignKeyFailed))
  /\ (TriggerAbort doctor_message <> TriggerAbort room_message
      /\ TriggerAbort doctor_message <> ForeignKeyFailed
      /\ TriggerAbort room_message <> ForeignKeyFailed)
  /\ (forall x, snd out = Error x -> fst out = s).
Proof.
  intros _ _ _. cbv zeta. unfold book_appointment.
  assert (Tr : trg_no_double_book_room s (option_map Integer r) t = false
               <-> ~ room_conflict s r t).
  { rewrite <- trg_no_double_book_room_true.
    destruct (trg_no_double_book_room s (option_map Integer r) t);
      split; congruence. }
  assert (Td : trg_no_double_book_doctor s (Integer d) t = false
               <-> ~ doctor_conflict s d t).
  { rewrite <- trg_no_double_book_doctor_true.
    destruct (trg_no_double_book_doctor s (Integer d) t); split; congruence. }
  split; [|split; [|split; [|split]]].
  - intros H. apply trg_no_double_book_room_true in H.
    unfold execute, insert_Appointments. now rewrite H.
  - intros Hr Hd. apply Tr in Hr. apply trg_no_double_book_doctor_true in Hd.
    unfold execute, insert_Appointments. now rewrite Hr, Hd.
  - intros Hd Hr Hm. apply Tr in Hr. apply Td in Hd.
    unfold execute, insert_Appointments. rewrite Hr, Hd.
    assert (F : forall a, Appointment.patient_id a = p ->
                          Appointment.doctor_id a = d ->
                          foreign_keys_hold s a = false).
    { intros a <- <-. unfold foreign_keys_hold.
      destruct Hm as [-> | ->]; [reflexivity|].
      now rewrite andb_false_r. }
    destruct r as [x|]; simpl; rewrite foreign_keys_after_log, F; reflexivity.
  - repeat split; discriminate.
  - intros x. apply execute_Error.
Qed.

(** C2 at work on [booked_once], where doctor 1 and room 1 are taken at
    [slot]: a missing patient with doctor 1 meets the doctor rule; doctor 2
    in room 1 meets the room rule, and so does doctor 1 in room 1, where
    both rules are broken; a missing patient with doctor 2 and no room
    meets the foreign key. *)
Lemma book_appointment_failures_booked_once :
  snd (book_appointment 99 1 slot None None "" clock booked_once)
  = Error (IntegrityError (TriggerAbort doctor_message))
  /\ snd (book_appointment 2 2 slot None (Some 1) "" clock booked_once)
     = Error (IntegrityError (TriggerAbort room_message))
  /\ snd (book_appointment 2 1 slot None (Some 1) "" clock booked_once)
     = Error (IntegrityError (TriggerAbort room_message))
  /\ snd (book_appointment 99 2 slot None None "" clock booked_once)
     = Error (IntegrityError ForeignKeyFailed)
  /\ fst (book_appointment 99 1 slot None None "" clock booked_once)
     = booked_once.
Proof.
  assert (I : forall z, - 2 ^ 63 <= z < 2 ^ 63 -> sqlite_integer z)
    by (intros z H; exact H).
  assert (R1 : forall x, Some 1 = Some x -> sqlite_integer x).
  { intros x E. injection E as <-. apply I. lia. }
  assert (R0 : forall x, @None Z = Some x -> sqlite_integer x)
    by (intros x E; discriminate).
  assert (B : In (Appointment.mk 1 1 1 (Some 1) slot None (Some EmptyString)
                    Booked) (Appointments booked_once)) by (left; reflexivity).
  assert (DC : doctor_conflict booked_once 1 slot).
  { eexists. split; [exact B|]. repeat split. discriminate. }
  assert (RC : room_conflict booked_once (Some 1) slot).
  { eexists. exists 1. split; [reflexivity|]. split; [exact B|].
    repeat split. discriminate. }
  assert (NR : ~ room_conflict booked_once None slot).
  { intros (a & x & E & _). discriminate. }
  assert (ND : ~ doctor_conflict booked_once 2 slot).
  { intros (a & [<-|[]] & E & _). discriminate. }
  destruct (book_appointment_failures booked_once 99 1 slot None None "" clock)
    as (_ & A2 & _ & _ & A5); [apply I; lia|apply I; lia|exact R0|].
  destruct (book_appointment_failures booked_once 2 2 slot None (Some 1) "" clock)
    as (B1 & _); [apply I; lia|apply I; lia|exact R1|].
  destruct (book_appointment_failures booked_once 2 1 slot None (Some 1) "" clock)
    as (C1 & _); [apply I; lia|apply I; lia|exact R1|].
  destruct (book_appointment_failures booked_once 99 2 slot None None "" clock)
    as (_ & _ & D3 & _); [apply I; lia|apply I; lia|exact R0|].
  split; [exact (A2 NR DC)|].
  split; [exact (B1 RC)|].
  split; [exact (C1 RC)|].
  split; [apply (D3 ND NR); left; reflexivity|].
  apply (A5 (IntegrityError (TriggerAbort doctor_message))). exact (A2 NR DC).
Defined.

(** C2, as stated, fails: patient 99 does not exist, yet the booking is
    refused by the doctor rule and not for the missing patient. *)
Lemma missing_patient_meets_doctor_rule :
  has_patient booked_once 99 = false
  /\ snd (book_appointment 99 1 slot None None "" clock booked_once)
     = Error (IntegrityError (TriggerAbort doctor_message))
  /\ snd (book_appointment 99 1 slot None None "" clock booked_once)
     <> Error (IntegrityError ForeignKeyFailed).
Proof.
  repeat split; [vm_compute; discriminate].
Qed.

(** ** The audit trail *)

Lemma insert_Appointments_appends (p d : value) (r : option value) (t : string)
    (e n : option string) (now : string) (s s' : store) (id : Z) :
  insert_Appointments p d r t e n now s = Ok (id, s') ->
  exists new entry,
    Appointments s' = Appointments s ++ [new]
    /\ AuditLog s' = AuditLog s ++ [entry]
    /\ new = Appointment.mk id (Appointment.patient_id new)
               (Appointment.doctor_id new) (Appointment.room_id new)
               t e n Booked
    /\ p = Integer (Appointment.patient_id new)
    /\ d = Integer (Appointment.doctor_id new)
    /\ r = option_map Integer (Appointment.room_id new)
    /\ AuditLogEntry.entity entry = "Appointments"%string
    /\ AuditLogEntry.action entry = "INSERT"%string
    /\ AuditLogEntry.details entry
       = Some (audit_details id (Appointment.patient_id new)
                 (Appointment.doctor_id new) t)
    /\ AuditLogEntry.created_at entry = Some now.
Proof.
  intros H. apply insert_Appointments_Ok in H.
  destruct H as (pz & dz & rz & -> & -> & -> & _ & _ & Hid & _ & ->).
  eexists. eexists. simpl. split; [|split].
  - apply insert_row_last. intros x Hx. simpl. rewrite Hid.
    apply new_rowid_above. now apply in_map.
  - apply insert_row_last. intros x Hx. simpl.
    apply new_rowid_above. now apply in_map.
  - simpl. repeat split; reflexivity.
Qed.

Lemma delete_Patients_AuditLog (id : Z) (s : store) :
  AuditLog (delete_Patients id s) = AuditLog s.
Proof. unfold delete_Patients. now destruct (has_patient s id). Qed.

Lemma delete_Doctors_AuditLog (id : Z) (s : store) :
  AuditLog (delete_Doctors id s) = AuditLog s.
Proof. unfold delete_Doctors. now destruct (has_doctor s id). Qed.

Lemma delete_Rooms_AuditLog (id : Z) (s : store) :
  AuditLog (delete_Rooms id s) = AuditLog s.
Proof. unfold delete_Rooms. now destruct (has_room s id). Qed.

Lemma step_without_appointment (o : op) (s : store) :
  creates_appointment o s = false -> AuditLog (step o s) = AuditLog s.
Proof.
  destruct o;
    cbn [step creates_appointment patient_delete doctor_delete fst];
    intros H.
  - apply (ext_AuditLog _ _ (init_db_extends s)).
  - unfold book_appointment in *.
    destruct (execute_cases (insert_Appointments (Integer patient_id)
                (Integer doctor_id) (option_map Integer room_id) start_time
                end_time (Some notes) now) s)
      as [(a & s' & _ & E)|(x & _ & E)]; rewrite E in *; simpl in *;
      [discriminate|reflexivity].
  - rewrite book_store.
    destruct (book_insert integer_affinity f now) as [st|]; [|reflexivity].
    destruct (execute_cases st s) as [(a & s' & _ & E)|(x & _ & E)];
      rewrite E in *; simpl in *; [discriminate|reflexivity].
  - apply (ext_AuditLog _ _ (patient_new_extends m f s)).
  - apply delete_Patients_AuditLog.
  - apply (ext_AuditLog _ _ (doctor_new_extends m f s)).
  - apply delete_Doctors_AuditLog.
  - apply (ext_AuditLog _ _ (insert_Rooms_extends room_number room_type s)).
  - apply delete_Rooms_AuditLog.
Qed.

Lemma step_with_appointment (o : op) (s : store) :
  creates_appointment o s = true ->
  exists new entry,
    Appointments (step o s) = Appointments s ++ [new]
    /\ AuditLog (step o s) = AuditLog s ++ [entry]
    /\ AuditLogEntry.entity entry = "Appointments"%string
    /\ AuditLogEntry.action entry = "INSERT"%string
    /\ AuditLogEntry.details entry
       = Some (audit_details (Appointment.appointment_id new)
                 (Appointment.patient_id new) (Appointment.doctor_id new)
                 (Appointment.start_time new)).
Proof.
  assert (G : forall st, (exists p d r t e n now,
                st = insert_Appointments p d r t e n now) ->
              is_ok (snd (execute st s)) = true ->
              exists new entry,
                Appointments (fst (execute st s)) = Appointments s ++ [new]
                /\ AuditLog (fst (execute st s)) = AuditLog s ++ [entry]
                /\ AuditLogEntry.entity entry = "Appointments"%string
                /\ AuditLogEntry.action entry = "INSERT"%string
                /\ AuditLogEntry.details entry
                   = Some (audit_details (Appointment.appointment_id new)
                             (Appointment.patient_id new)
                             (Appointment.doctor_id new)
                             (Appointment.start_time new))).
  { intros st (p & d & r & t & e & n & now & ->) H.
    destruct (execute_cases (insert_Appointments p d r t e n now) s)
      as [(a & s' & E1 & E)|(x & _ & E)]; rewrite E in *; simpl in *;
      [|discriminate].
    apply insert_Appointments_appends in E1.
    destruct E1 as (new & entry & A1 & A2 & A3 & _ & _ & _ & A4 & A5 & A6 & _).
    assert (Ei : Appointment.appointment_id new = a) by (rewrite A3; reflexivity).
    assert (Et : Appointment.start_time new = t) by (rewrite A3; reflexivity).
    exists new, entry. rewrite Ei, Et. auto. }
  destruct o; cbn [step creates_appointment]; try discriminate; intros H.
  - apply G; [|assumption]. do 7 eexists. reflexivity.
  - rewrite book_store.
    destruct (book_insert integer_affinity f now) as [st|] eqn:E; [|discriminate].
    apply G; [|assumption].
    apply book_insert_shape in E. destruct E as (p & d & r & t & e & n & ->).
    do 7 eexists. reflexivity.
Qed.

Lemma appointment_inserts_run (ops : list op) (s : store) :
  List.length (appointment_inserts (run ops s))
  = (List.length (appointment_inserts s) + created ops s)%nat
  /\ List.length (AuditLog (run ops s))
     = (List.length (AuditLog s) + created ops s)%nat.
Proof.
  revert s. induction ops as [|o ops IH]; simpl; intros s; [lia|].
  destruct (IH (step o s)) as [I1 I2]. rewrite I1, I2.
  unfold appointment_inserts.
  destruct (creates_appointment o s) eqn:C.
  - destruct (step_with_appointment o s C) as (new & entry & _ & A & E1 & E2 & _).
    rewrite A, filter_app, !length_app. simpl. rewrite E1, E2. simpl. lia.
  - rewrite (step_without_appointment o s C). lia.
Qed.

Lemma booking_creates (s : store) (p d : Z) (t : string) (e : option string)
    (r : option Z) (n now : string) :
  has_patient s p = true -> has_doctor s d = true ->
  (forall x, r = Some x -> has_room s x = true) ->
  ~ doctor_conflict s d t -> ~ room_conflict s r t ->
  creates_appointment (BookAppointment p d t e r n now) s = true.
Proof.
  intros Hp Hd Hr Nd Nr.
  assert (Tr : trg_no_double_book_room s (option_map Integer r) t = false).
  { destruct (trg_no_double_book_room s (option_map Integer r) t) eqn:E;
      [|reflexivity].
    apply trg_no_double_book_room_true in E. contradiction. }
  assert (Td : trg_no_double_book_doctor s (Integer d) t = false).
  { destruct (trg_no_double_book_doctor s (Integer d) t) eqn:E; [|reflexivity].
    apply trg_no_double_book_doctor_true in E. contradiction. }
  cbn [creates_appointment].
  unfold book_appointment, execute, insert_Appointments. rewrite Tr, Td.
  destruct r as [x|]; simpl;
    rewrite foreign_keys_after_log; unfold foreign_keys_hold; simpl;
    rewrite Hp, Hd, ?(Hr x eq_refl); reflexivity.
Qed.

(** C3. A booking whose patient, doctor and room (if any) exist and that
    breaks neither conflict rule creates an appointment.  An operation
    that creates an appointment appends that row to Appointments and
    exactly one entry to AuditLog, with entity "Appointments", action
    "INSERT" and as details the text that spells the appointment's id,
    patient, doctor and start time; every other writing operation leaves
    AuditLog as it was; so after any history from the empty database the
    number of such entries, which is the length of AuditLog, is the number
    of appointments the history created. *)
Theorem audit_completeness :
  (forall s p d t e r n now,
     has_patient s p = true -> has_doctor s d = true ->
     (forall x, r = Some x -> has_room s x = true) ->
     ~ doctor_conflict s d t -> ~ room_conflict s r t ->
     creates_appointment (BookAppointment p d t e r n now) s = true)
  /\ (forall o s, creates_appointment o s = true ->
     exists new entry,
       Appointments (step o s) = Appointments s ++ [new]
       /\ AuditLog (step o s) = AuditLog s ++ [entry]
       /\ AuditLogEntry.entity entry = "Appointments"%string
       /\ AuditLogEntry.action entry = "INSERT"%string
       /\ AuditLogEntry.details entry
          = Some ("appointment_id=" +++ text_of_int (Appointment.appointment_id new)
                  +++ ", patient_id=" +++ text_of_int (Appointment.patient_id new)
                  +++ ", doctor_id=" +++ text_of_int (Appointment.doctor_id new)
                  +++ ", start_time=" +++ Appointment.start_time new))
  /\ (forall o s, creates_appointment o s = false ->
        AuditLog (step o s) = AuditLog s)
  /\ (forall ops,
        List.length (appointment_inserts (run ops empty_store))
        = created ops empty_store
        /\ List.length (AuditLog (run ops empty_store))
           = created ops empty_store).
Proof.
  split; [|split; [|split]].
  - exact booking_creates.
  - exact step_with_appointment.
  - exact step_without_appointment.
  - intros ops. destruct (appointment_inserts_run ops empty_store) as [A B].
    rewrite A, B. simpl. auto.
Qed.

(** C3 at work: on the seeded database the booking of patient 1 with
    doctor 1 in room 1 creates appointment 1 and writes the one line of the
    audit log, and the history that leads to [booked_once] created one
    appointment. *)
Lemma audit_completeness_booked_once :
  creates_appointment (BookAppointment 1 1 slot None (Some 1) "" clock) seeded
  = true
  /\ Appointments (step (BookAppointment 1 1 slot None (Some 1) "" clock) seeded)
     = [Appointment.mk 1 1 1 (Some 1) slot None (Some EmptyString) Booked]
  /\ AuditLog (step (BookAppointment 1 1 slot None (Some 1) "" clock) seeded)
     = [AuditLogEntry.mk 1 "Appointments" "INSERT"
          (Some "appointment_id=1, patient_id=1, doctor_id=1, start_time=2025-08-30 09:00"%string)
          (Some clock)]
  /\ List.length (AuditLog booked_once) = 1%nat
  /\ created [InitDb; BookAppointment 1 1 slot None (Some 1) "" clock] empty_store
     = 1%nat.
Proof.
  destruct audit_completeness as (S & A & _ & C).
  assert (Cr : creates_appointment
                 (BookAppointment 1 1 slot None (Some 1) "" clock) seeded = true).
  { apply S.
    - reflexivity.
    - reflexivity.
    - intros x E. injection E as <-. reflexivity.
    - intros (a & [] & _).
    - intros (a & x & _ & [] & _). }
  destruct (A _ _ Cr) as (new & entry & A1 & A2 & A3 & A4 & A5).
  destruct (C [InitDb; BookAppointment 1 1 slot None (Some 1) "" clock])
    as (_ & C2).
  split; [exact Cr|].
  split; [reflexivity|].
  split; [reflexivity|].
  split; [exact C2|reflexivity].
Defined.

(** ** ON DELETE CASCADE and ON DELETE SET NULL *)

Lemma references_ok_iff (s : store) :
  references_ok s = true <->
  forall a, In a (Appointments s) -> foreign_keys_hold s a = true.
Proof. unfold references_ok. apply forallb_forall. Qed.

(** Foreign keys hold after every history. *)
Lemma references_ok_run (ops : list op) :
  references_ok (run ops empty_store) = true.
Proof.
  apply references_ok_iff.
  apply (references_hold _ (run_consistent ops empty_store consistent_empty)).
Qed.

Lemma filter_all {A : Type} (q : A -> bool) (l : list A) :
  (forall x, In x l -> q x = true) -> filter q l = l.
Proof.
  induction l as [|x l IH]; simpl; intros H; [reflexivity|].
  rewrite (H x (or_introl eq_refl)). f_equal. apply IH. auto.
Qed.

Lemma existsb_filter_negb {A : Type} (q : A -> bool) (l : list A) :
  existsb q (filter (fun x => negb (q x)) l) = false.
Proof.
  induction l as [|x l IH]; simpl; [reflexivity|].
  destruct (q x) eqn:E; simpl; [assumption|]. now rewrite E.
Qed.

Lemma existsb_false_all {A : Type} (q : A -> bool) (l : list A) :
  existsb q l = false -> forall x, In x l -> negb (q x) = true.
Proof.
  intros H x Hx. destruct (q x) eqn:E; [|reflexivity].
  assert (existsb q l = true) by (apply existsb_exists; eauto). congruence.
Qed.

Lemma foreign_keys_hold_parts (s : store) (a : Appointment.row) :
  foreign_keys_hold s a = true ->
  has_patient s (Appointment.patient_id a) = true
  /\ has_doctor s (Appointment.doctor_id a) = true
  /\ (forall r, Appointment.room_id a = Some r -> has_room s r = true).
Proof.
  unfold foreign_keys_hold. rewrite !andb_true_iff. intros [[Hp Hd] Hr].
  repeat split; auto. intros r E. now rewrite E in Hr.
Qed.

(** C4. On a store whose foreign keys hold, as they do after every
    history, [patient_delete P] is one step to the store without patient P
    and without any appointment of P, and [doctor_delete D] is one step to
    the store without doctor D and without any appointment of D: the parent
    and its appointments go together, and no other row changes. *)
Theorem cascade_on_delete (s : store) (P D : Z) :
  references_ok s = true ->
  let sp := fst (patient_delete P s) in
  let sd := fst (doctor_delete D s) in
  (has_patient sp P = false
   /\ (forall a, In a (Appointments sp) -> Appointment.patient_id a <> P)
   /\ Patients sp = filter (fun p => negb (Patient.patient_id p =? P)) (Patients s)
   /\ Appointments sp
      = filter (fun a => negb (Appointment.patient_id a =? P)) (Appointments s)
   /\ Doctors sp = Doctors s /\ Rooms sp = Rooms s /\ AuditLog sp = AuditLog s)
  /\ (has_doctor sd D = false
      /\ (forall a, In a (Appointments sd) -> Appointment.doctor_id a <> D)
      /\ Doctors sd = filter (fun d => negb (Doctor.doctor_id d =? D)) (Doctors s)
      /\ Appointments sd
         = filter (fun a => negb (Appointment.doctor_id a =? D)) (Appointments s)
      /\ Patients sd = Patients s /\ Rooms sd = Rooms s /\ AuditLog sd = AuditLog s).
Proof.
  intros H. rewrite references_ok_iff in H. simpl. split.
  - assert (A : Appointments (delete_Patients P s)
                = filter (fun a => negb (Appointment.patient_id a =? P))
                         (Appointments s)).
    { unfold delete_Patients. destruct (has_patient s P) eqn:E; [reflexivity|].
      symmetry. apply filter_all. intros a Ha.
      destruct (foreign_keys_hold_parts s a (H a Ha)) as (Hp & _).
      apply negb_true_iff, Z.eqb_neq. intros X. rewrite X in *. congruence. }
    assert (B : Patients (delete_Patients P s)
                = filter (fun p => negb (Patient.patient_id p =? P)) (Patients s)).
    { unfold delete_Patients. destruct (has_patient s P) eqn:E; [reflexivity|].
      symmetry. apply filter_all.
      apply (existsb_false_all (fun p => Patient.patient_id p =? P)). exact E. }
    repeat split; auto.
    + unfold has_patient. rewrite B.
      apply (existsb_filter_negb (fun p => Patient.patient_id p =? P)).
    + intros a Ha. rewrite A in Ha. apply filter_In in Ha. destruct Ha as [_ Ha].
      apply negb_true_iff, Z.eqb_neq in Ha. exact Ha.
    + unfold delete_Patients. now destruct (has_patient s P).
    + unfold delete_Patients. now destruct (has_patient s P).
    + apply delete_Patients_AuditLog.
  - assert (A : Appointments (delete_Doctors D s)
                = filter (fun a => negb (Appointment.doctor_id a =? D))
                         (Appointments s)).
    { unfold delete_Doctors. destruct (has_doctor s D) eqn:E; [reflexivity|].
      symmetry. apply filter_all. intros a Ha.
      destruct (foreign_keys_hold_parts s a (H a Ha)) as (_ & Hd & _).
      apply negb_true_iff, Z.eqb_neq. intros X. rewrite X in *. congruence. }
    assert (B : Doctors (delete_Doctors D s)
                = filter (fun d => negb (Doctor.doctor_id d =? D)) (Doctors s)).
    { unfold delete_Doctors. destruct (has_doctor s D) eqn:E; [reflexivity|].
      symmetry. apply filter_all.
      apply (existsb_false_all (fun d => Doctor.doctor_id d =? D)). exact E. }
    repeat split; auto.
    + unfold has_doctor. rewrite B.
      apply (existsb_filter_negb (fun d => Doctor.doctor_id d =? D)).
    + intros a Ha. rewrite A in Ha. apply filter_In in Ha. destruct Ha as [_ Ha].
      apply negb_true_iff, Z.eqb_neq in Ha. exact Ha.
    + unfold delete_Doctors. now destruct (has_doctor s D).
    + unfold delete_Doctors. now destruct (has_doctor s D).
    + apply delete_Doctors_AuditLog.
Qed.

(** C4 at work: patient 1 and doctor 1 of [booked_once] each have one
    appointment. *)
Lemma cascade_on_delete_booked_once :
  references_ok booked_once = true
  /\ Appointments (fst (patient_delete 1 booked_once)) = []
  /\ Appointments (fst (doctor_delete 1 booked_once)) = []
  /\ has_patient (fst (patient_delete 1 booked_once)) 1 = false
  /\ has_doctor (fst (doctor_delete 1 booked_once)) 1 = false.
Proof.
  assert (H : references_ok booked_once = true) by reflexivity.
  destruct (cascade_on_delete booked_once 1 1 H)
    as ((P1 & _ & _ & P2 & _) & (D1 & _ & _ & D2 & _)).
  split; [exact H|].
  split; [rewrite P2; reflexivity|].
  split; [rewrite D2; reflexivity|].
  split; assumption.
Defined.

(** C5, where [deleteRoom R] is [delete_Rooms R].  On a store whose foreign
    keys hold, room R is gone afterwards, the appointments are the same
    rows in the same places, each with every field but room_id as before,
    room_id NULL where it was R, and the whole row as before where it was
    not R. *)
Theorem nullify_on_room_delete (s : store) (R : Z) :
  references_ok s = true ->
  let s' := delete_Rooms R s in
  has_room s' R = false
  /\ Forall2 (fun a b =>
                Appointment.appointment_id b = Appointment.appointment_id a
                /\ Appointment.patient_id b = Appointment.patient_id a
                /\ Appointment.doctor_id b = Appointment.doctor_id a
                /\ Appointment.start_time b = Appointment.start_time a
                /\ Appointment.end_time b = Appointment.end_time a
                /\ Appointment.notes b = Appointment.notes a
                /\ Appointment.status b = Appointment.status a
                /\ (Appointment.room_id a = Some R -> Appointment.room_id b = None)
                /\ (Appointment.room_id a <> Some R -> b = a))
             (Appointments s) (Appointments s')
  /\ Patients s' = Patients s /\ Doctors s' = Doctors s
  /\ AuditLog s' = AuditLog s.
Proof.
  intros H. rewrite references_ok_iff in H. simpl.
  assert (F : forall l, Forall2 (fun a b =>
                Appointment.appointment_id b = Appointment.appointment_id a
                /\ Appointment.patient_id b = Appointment.patient_id a
                /\ Appointment.doctor_id b = Appointment.doctor_id a
                /\ Appointment.start_time b = Appointment.start_time a
                /\ Appointment.end_time b = Appointment.end_time a
                /\ Appointment.notes b = Appointment.notes a
                /\ Appointment.status b = Appointment.status a
                /\ (Appointment.room_id a = Some R -> Appointment.room_id b = None)
                /\ (Appointment.room_id a <> Some R -> b = a))
             l (map (set_null_room R) l)).
  { induction l as [|a l IH]; simpl; constructor; [|assumption].
    apply (set_null_room_fields R a). }
  unfold delete_Rooms. destruct (has_room s R) eqn:E; simpl.
  - repeat split; auto.
    apply (existsb_filter_negb (fun r => Room.room_id r =? R)).
  - repeat split; auto.
    replace (Appointments s) with (map (set_null_room R) (Appointments s)) at 2;
      [apply F|].
    rewrite <- (map_id (Appointments s)) at 2. apply map_ext_in.
    intros a Ha. apply (set_null_room_fields R a).
    intros Er. destruct (foreign_keys_hold_parts s a (H a Ha)) as (_ & _ & Hr).
    specialize (Hr R Er). congruence.
Qed.

(** C5 at work: room 1 of [booked_once] holds its one appointment. *)
Lemma nullify_on_room_delete_booked_once :
  references_ok booked_once = true
  /\ has_room (delete_Rooms 1 booked_once) 1 = false
  /\ Appointments (delete_Rooms 1 booked_once)
     = [Appointment.mk 1 1 1 None slot None (Some EmptyString) Booked].
Proof.
  assert (H : references_ok booked_once = true) by reflexivity.
  destruct (nullify_on_room_delete booked_once 1 H) as (R1 & _).
  split; [exact H|]. split; [exact R1|reflexivity].
Defined.

(** ** Cancelled appointments *)

(** C6. When the patient, the doctor and the room (if one is given) exist,
    every appointment of that doctor at that start time is cancelled, and
    every appointment in that room at that start time is cancelled, the
    booking succeeds: it returns a new id and appends the Booked row. *)
Theorem cancelled_never_conflicts (s : store) (p d : Z) (t : string)
    (e : option string) (r : option Z) (n now : string) :
  has_patient s p = true ->
  has_doctor s d = true ->
  (forall x, r = Some x -> has_room s x = true) ->
  (forall a, In a (Appointments s) ->
             Appointment.doctor_id a = d -> Appointment.start_time a = t ->
             Appointment.status a = Cancelled) ->
  (forall a x, r = Some x -> In a (Appointments s) ->
               Appointment.room_id a = Some x -> Appointment.start_time a = t ->
               Appointment.status a = Cancelled) ->
  exists id,
    snd (book_appointment p d t e r n now s) = Ok id
    /\ ~ In id (map Appointment.appointment_id (Appointments s))
    /\ Appointments (fst (book_appointment p d t e r n now s))
       = Appointments s ++ [Appointment.mk id p d r t e (Some n) Booked].
Proof.
  intros Hp Hd Hr Cd Cr.
  apply trg_no_double_book_doctor_false in Cd.
  assert (Tr : trg_no_double_book_room s (option_map Integer r) t = false).
  { destruct r as [x|]; [|reflexivity]. simpl.
    apply trg_no_double_book_room_false. intros a. now apply Cr. }
  exists (new_rowid (seq_Appointments (sequence s))
            (map Appointment.appointment_id (Appointments s))).
  assert (Hi : forall (x : Appointment.row) q, In x (Appointments s) ->
            Appointment.appointment_id x
            < new_rowid q (map Appointment.appointment_id (Appointments s))).
  { intros x q Hx. apply new_rowid_above. now apply in_map. }
  unfold book_appointment, execute, insert_Appointments.
  rewrite Cd, Tr.
  destruct r as [x|]; simpl;
    rewrite foreign_keys_after_log; unfold foreign_keys_hold; simpl;
    rewrite Hp, Hd, ?(Hr x eq_refl); simpl;
    (split; [reflexivity|]); (split; [apply new_rowid_fresh|]);
    apply insert_row_last; intros a Ha; simpl; now apply Hi.
Qed.

(** C6 at work: the slot of doctor 1 and room 1 in [cancelled_once] is held
    by a cancelled appointment only, and patient 2 gets it. *)
Lemma cancelled_never_conflicts_rebooking :
  exists id,
    snd (book_appointment 2 1 slot None (Some 1) "" clock cancelled_once) = Ok id
    /\ ~ In id (map Appointment.appointment_id (Appointments cancelled_once))
    /\ Appointments (fst (book_appointment 2 1 slot None (Some 1) "" clock
                            cancelled_once))
       = Appointments cancelled_once
         ++ [Appointment.mk id 2 1 (Some 1) slot None (Some EmptyString) Booked].
Proof.
  apply (cancelled_never_conflicts cancelled_once 2 1 slot None (Some 1) "" clock).
  - reflexivity.
  - reflexivity.
  - intros x E. injection E as <-. reflexivity.
  - simpl. intros a [<-|[]] _ _. reflexivity.
  - simpl. intros a x _ [<-|[]] _ _. reflexivity.
Defined.

(** The same rebooking, computed. *)
Lemma rebooking_computed :
  snd (book_appointment 2 1 slot None (Some 1) "" clock cancelled_once) = Ok 2.
Proof. reflexivity. Qed.

(** ** The per-doctor report *)

Lemma string_leb_trans (a b c : string) :
  String.leb a b = true -> String.leb b c = true -> String.leb a c = true.
Proof.
  unfold String.leb. revert b c.
  induction a as [|x a IH]; intros [|y b] [|z c]; simpl; try congruence.
  unfold Ascii.compare.
  destruct (N.compare_spec (N_of_ascii x) (N_of_ascii y)) as [E1|L1|G1];
    destruct (N.compare_spec (N_of_ascii y) (N_of_ascii z)) as [E2|L2|G2];
    destruct (N.compare_spec (N_of_ascii x) (N_of_ascii z)) as [E3|L3|G3];
    try congruence; try lia.
  apply IH.
Qed.

Lemma report_leb_iff (x y : string * Z) :
  ReportOrder.leb x y = true <-> report_before x y.
Proof.
  unfold ReportOrder.leb, report_before.
  rewrite orb_true_iff, andb_true_iff, Z.ltb_lt, Z.eqb_eq. reflexivity.
Qed.

Lemma report_leb_trans :
  Transitive (fun x y => is_true (ReportOrder.leb x y)).
Proof.
  intros x y z. unfold is_true. rewrite !report_leb_iff. unfold report_before.
  intros [L1|[E1 N1]] [L2|[E2 N2]]; try (left; lia).
  right. split; [lia|]. eapply string_leb_trans; eauto.
Qed.

Lemma StronglySorted_impl {A : Type} (P Q : A -> A -> Prop) (l : list A) :
  (forall x y, P x y -> Q x y) -> StronglySorted P l -> StronglySorted Q l.
Proof.
  intros H. induction 1 as [|x l S IH F]; constructor; auto.
  revert F. apply Forall_impl. apply H.
Qed.

(** C7. The report is the list of the rows (name, count), one per row of
    Doctors, count being the number of appointments of that doctor that
    are not cancelled (0 when there is none), put in an order where each
    row may come before all the rows after it. *)
Theorem report_per_doctor (s : store) :
  Permutation
    (map (fun d =>
            (Doctor.full_name d,
             Z.of_nat (List.length
                         (filter (fun a =>
                                    (Appointment.doctor_id a =? Doctor.doctor_id d)
                                    && negb (status_eqb (Appointment.status a)
                                                        Cancelled))
                                 (Appointments s)))))
         (Doctors s))
    (report_appointments_per_doctor s)
  /\ StronglySorted report_before (report_appointments_per_doctor s)
  /\ List.length (report_appointments_per_doctor s) = List.length (Doctors s).
Proof.
  unfold report_appointments_per_doctor.
  assert (E : map (fun d =>
            (Doctor.full_name d,
             Z.of_nat (List.length
                         (filter (fun a =>
                                    (Appointment.doctor_id a =? Doctor.doctor_id d)
                                    && negb (status_eqb (Appointment.status a)
                                                        Cancelled))
                                 (Appointments s)))))
         (Doctors s)
         = map (fun d => (Doctor.full_name d, total_appointments s d)) (Doctors s)).
  { apply map_ext. intros d. unfold total_appointments, not_cancelled.
    do 3 f_equal. apply filter_ext. intros a.
    now rewrite (Z.eqb_sym (Doctor.doctor_id d)). }
  rewrite E. split; [|split].
  - apply ReportSort.Permuted_sort.
  - apply (StronglySorted_impl (fun x y => is_true (ReportOrder.leb x y))).
    + intros x y. apply report_leb_iff.
    + apply ReportSort.StronglySorted_sort. exact report_leb_trans.
  - rewrite <- (Permutation_length (ReportSort.Permuted_sort _)).
    apply length_map.
Qed.

(** The ordering scenario of the spec: A and B with three appointments
    each, C with none. *)
Lemma report_ordering_scenario :
  ReportSort.sort [("C", 0); ("B", 3); ("A", 3)]%string
  = [("A", 3); ("B", 3); ("C", 0)]%string.
Proof. reflexivity. Qed.

Lemma report_after_one_booking :
  report_appointments_per_doctor booked_once
  = [("Dr. Nimal Fernando", 1); ("Dr. Isuri Ranasinghe", 0)]%string.
Proof. reflexivity. Qed.

(** ** Seeding twice *)

Section Settled.
Context {R : Type} (one : R -> store -> store) (settled : R -> store -> Prop).
Hypothesis one_settles : forall r s, settled r (one r s).
Hypothesis one_keeps : forall r r' s, settled r s -> settled r (one r' s).
Hypothesis one_skips : forall r s, settled r s -> one r s = s.

Lemma fold_keeps (r : R) (rows : list R) (s : store) :
  settled r s -> settled r (fold_left (fun acc x => one x acc) rows s).
Proof.
  revert s. induction rows as [|x rows IH]; simpl; intros s H; [assumption|].
  apply IH. now apply one_keeps.
Qed.

Lemma fold_settles (rows : list R) (s : store) :
  Forall (fun r => settled r (fold_left (fun acc x => one x acc) rows s)) rows.
Proof.
  revert s. induction rows as [|x rows IH]; simpl; intros s; constructor.
  - apply fold_keeps. apply one_settles.
  - apply IH.
Qed.

Lemma fold_skips (rows : list R) (s : store) :
  Forall (fun r => settled r s) rows ->
  fold_left (fun acc x => one x acc) rows s = s.
Proof.
  induction rows as [|x rows IH]; simpl; intros H; [reflexivity|].
  inversion H as [|? ? Hx Hr]; subst.
  rewrite (one_skips x s Hx). now apply IH.
Qed.

End Settled.

Lemma existsb_incl {A : Type} (q : A -> bool) (l l' : list A) :
  (forall x, In x l -> In x l') -> existsb q l = true -> existsb q l' = true.
Proof.
  intros H E. apply existsb_exists in E. destruct E as (x & Hx & Qx).
  apply existsb_exists. exists x. auto.
Qed.

Lemma Patients_settled_mono (r : Patient.row) (s s' : store) :
  (forall p, In p (Patients s) -> In p (Patients s')) ->
  seq_Patients (sequence s) <= seq_Patients (sequence s') ->
  Patients_settled r s -> Patients_settled r s'.
Proof.
  unfold Patients_settled, has_patient, email_taken.
  intros I L [H Q]. split; [|lia].
  rewrite !orb_true_iff in *. destruct H as [[H|H]|H]; auto.
  - left; right. eapply existsb_incl; eauto.
  - right. eapply existsb_incl; eauto.
Qed.

Lemma Doctors_settled_mono (r : Doctor.row) (s s' : store) :
  (forall p, In p (Doctors s) -> In p (Doctors s')) ->
  seq_Doctors (sequence s) <= seq_Doctors (sequence s') ->
  Doctors_settled r s -> Doctors_settled r s'.
Proof.
  unfold Doctors_settled, has_doctor.
  intros I L [H Q]. split; [|lia]. eapply existsb_incl; eauto.
Qed.

Lemma Rooms_settled_mono (r : Room.row) (s s' : store) :
  (forall p, In p (Rooms s) -> In p (Rooms s')) ->
  seq_Rooms (sequence s) <= seq_Rooms (sequence s') ->
  Rooms_settled r s -> Rooms_settled r s'.
Proof.
  unfold Rooms_settled, has_room, room_number_taken.
  intros I L [H Q]. split; [|lia].
  rewrite !orb_true_iff in *. destruct H as [H|H]; [left|right];
    eapply existsb_incl; eauto.
Qed.

Lemma insert_or_ignore_Patients_seq (r : Patient.row) (s : store) :
  seq_Patients (sequence (insert_or_ignore_Patients r s))
  = Z.max (seq_Patients (sequence s)) (Patient.patient_id r).
Proof. unfold insert_or_ignore_Patients. now destruct (_ || _ || _). Qed.

Lemma insert_or_ignore_Doctors_seq (r : Doctor.row) (s : store) :
  seq_Doctors (sequence (insert_or_ignore_Doctors r s))
  = Z.max (seq_Doctors (sequence s)) (Doctor.doctor_id r).
Proof. unfold insert_or_ignore_Doctors. now destruct (has_doctor _ _). Qed.

Lemma insert_or_ignore_Rooms_seq (r : Room.row) (s : store) :
  seq_Rooms (sequence (insert_or_ignore_Rooms r s))
  = Z.max (seq_Rooms (sequence s)) (Room.room_id r).
Proof. unfold insert_or_ignore_Rooms. now destruct (_ || _). Qed.

Lemma insert_or_ignore_Patients_settles (r : Patient.row) (s : store) :
  Patients_settled r (insert_or_ignore_Patients r s).
Proof.
  split; [|rewrite insert_or_ignore_Patients_seq; lia].
  unfold insert_or_ignore_Patients.
  destruct (negb (gender_check (Patient.gender r))
            || has_patient s (Patient.patient_id r)
            || email_taken s (Patient.email r)) eqn:E; [exact E|].
  rewrite !orb_true_iff. left; right.
  apply has_patient_iff. exists r. split; [|reflexivity].
  simpl. apply insert_row_In. now left.
Qed.

Lemma insert_or_ignore_Doctors_settles (r : Doctor.row) (s : store) :
  Doctors_settled r (insert_or_ignore_Doctors r s).
Proof.
  split; [|rewrite insert_or_ignore_Doctors_seq; lia].
  unfold insert_or_ignore_Doctors.
  destruct (has_doctor s (Doctor.doctor_id r)) eqn:E; [exact E|].
  apply has_doctor_iff. exists r. split; [|reflexivity].
  simpl. apply insert_row_In. now left.
Qed.

Lemma insert_or_ignore_Rooms_settles (r : Room.row) (s : store) :
  Rooms_settled r (insert_or_ignore_Rooms r s).
Proof.
  split; [|rewrite insert_or_ignore_Rooms_seq; lia].
  unfold insert_or_ignore_Rooms.
  destruct (has_room s (Room.room_id r)
            || room_number_taken s (Room.room_number r)) eqn:E; [exact E|].
  rewrite orb_true_iff. left.
  apply has_room_iff. exists r. split; [|reflexivity].
  simpl. apply insert_row_In. now left.
Qed.

Lemma insert_or_ignore_Patients_keeps (r r' : Patient.row) (s : store) :
  Patients_settled r s -> Patients_settled r (insert_or_ignore_Patients r' s).
Proof.
  apply Patients_settled_mono.
  - apply (ext_Patients _ _ (insert_or_ignore_Patients_extends r' s)).
  - rewrite insert_or_ignore_Patients_seq. lia.
Qed.

Lemma insert_or_ignore_Doctors_keeps (r r' : Doctor.row) (s : store) :
  Doctors_settled r s -> Doctors_settled r (insert_or_ignore_Doctors r' s).
Proof.
  apply Doctors_settled_mono.
  - apply (ext_Doctors _ _ (insert_or_ignore_Doctors_extends r' s)).
  - rewrite insert_or_ignore_Doctors_seq. lia.
Qed.

Lemma insert_or_ignore_Rooms_keeps (r r' : Room.row) (s : store) :
  Rooms_settled r s -> Rooms_settled r (insert_or_ignore_Rooms r' s).
Proof.
  apply Rooms_settled_mono.
  - apply (ext_Rooms _ _ (insert_or_ignore_Rooms_extends r' s)).
  - rewrite insert_or_ignore_Rooms_seq. lia.
Qed.

Lemma insert_or_ignore_Patients_skips (r : Patient.row) (s : store) :
  Patients_settled r s -> insert_or_ignore_Patients r s = s.
Proof.
  intros [H Q]. unfold insert_or_ignore_Patients. rewrite H.
  destruct s as [P D Ro A L [q1 q2 q3 q4 q5]]; simpl in *.
  unfold with_Patients; simpl. now rewrite Z.max_l by lia.
Qed.

Lemma insert_or_ignore_Doctors_skips (r : Doctor.row) (s : store) :
  Doctors_settled r s -> insert_or_ignore_Doctors r s = s.
Proof.
  intros [H Q]. unfold insert_or_ignore_Doctors. rewrite H.
  destruct s as [P D Ro A L [q1 q2 q3 q4 q5]]; simpl in *.
  unfold with_Doctors; simpl. now rewrite Z.max_l by lia.
Qed.

Lemma insert_or_ignore_Rooms_skips (r : Room.row) (s : store) :
  Rooms_settled r s -> insert_or_ignore_Rooms r s = s.
Proof.
  intros [H Q]. unfold insert_or_ignore_Rooms. rewrite H.
  destruct s as [P D Ro A L [q1 q2 q3 q4 q5]]; simpl in *.
  unfold with_Rooms; simpl. now rewrite Z.max_l by lia.
Qed.

Lemma init_db_unfold (s : store) :
  init_db s
  = (seed_with insert_or_ignore_Rooms seed_Rooms
       (seed_with insert_or_ignore_Doctors seed_Doctors
          (seed_with insert_or_ignore_Patients seed_Patients s)),
     Ok tt).
Proof. reflexivity. Qed.

(** The seed rows of a table stay settled while the other tables are
    seeded. *)
Lemma seeds_settled (s : store) :
  let s1 := seed_with insert_or_ignore_Patients seed_Patients s in
  let s2 := seed_with insert_or_ignore_Doctors seed_Doctors s1 in
  let s3 := seed_with insert_or_ignore_Rooms seed_Rooms s2 in
  Forall (fun r => Patients_settled r s3) seed_Patients
  /\ Forall (fun r => Doctors_settled r s3) seed_Doctors
  /\ Forall (fun r => Rooms_settled r s3) seed_Rooms.
Proof.
  intros s1 s2 s3.
  assert (E2 : extends s1 s2)
    by apply (fold_left_extends _ _ insert_or_ignore_Doctors_extends).
  assert (E3 : extends s2 s3)
    by apply (fold_left_extends _ _ insert_or_ignore_Rooms_extends).
  assert (Q2 : sequence s2 = mk_seq (seq_Patients (sequence s1))
                 (seq_Doctors (sequence s2)) (seq_Rooms (sequence s1))
                 (seq_Appointments (sequence s1)) (seq_AuditLog (sequence s1))).
  { unfold s2, seed_with, seed_Doctors. cbn [fold_left].
    unfold insert_or_ignore_Doctors.
    repeat match goal with
           | |- context [if ?c then _ else _] => destruct c
           end; reflexivity. }
  assert (Q3 : sequence s3 = mk_seq (seq_Patients (sequence s2))
                 (seq_Doctors (sequence s2)) (seq_Rooms (sequence s3))
                 (seq_Appointments (sequence s2)) (seq_AuditLog (sequence s2))).
  { unfold s3, seed_with, seed_Rooms. cbn [fold_left].
    unfold insert_or_ignore_Rooms.
    repeat match goal with
           | |- context [if ?c then _ else _] => destruct c
           end; reflexivity. }
  split; [|split].
  - pose proof (fold_settles insert_or_ignore_Patients Patients_settled
                  insert_or_ignore_Patients_settles
                  insert_or_ignore_Patients_keeps seed_Patients s) as F.
    revert F. apply Forall_impl. intros r Hr.
    apply (Patients_settled_mono r s2 s3).
    + apply (ext_Patients _ _ E3).
    + rewrite Q3. simpl. lia.
    + apply (Patients_settled_mono r s1 s2).
      * apply (ext_Patients _ _ E2).
      * rewrite Q2. simpl. lia.
      * exact Hr.
  - pose proof (fold_settles insert_or_ignore_Doctors Doctors_settled
                  insert_or_ignore_Doctors_settles
                  insert_or_ignore_Doctors_keeps seed_Doctors s1) as F.
    revert F. apply Forall_impl. intros r Hr.
    apply (Doctors_settled_mono r s2 s3).
    + apply (ext_Doctors _ _ E3).
    + rewrite Q3. simpl. lia.
    + exact Hr.
  - apply (fold_settles insert_or_ignore_Rooms Rooms_settled
             insert_or_ignore_Rooms_settles insert_or_ignore_Rooms_keeps).
Qed.

(** C9. [init_db] never raises, and run on the store a first run left it
    returns that very store: no table gains or loses a row and no sequence
    moves.  On a new database the first run leaves the two patients, the
    two doctors and the three rooms of the seed data, and nothing else. *)
Theorem init_db_idempotent (s : store) :
  snd (init_db s) = Ok tt
  /\ init_db (fst (init_db s)) = (fst (init_db s), Ok tt)
  /\ (Patients (fst (init_db empty_store)) = seed_Patients
      /\ Doctors (fst (init_db empty_store)) = seed_Doctors
      /\ Rooms (fst (init_db empty_store)) = seed_Rooms
      /\ Appointments (fst (init_db empty_store)) = []
      /\ AuditLog (fst (init_db empty_store)) = [])
  /\ (List.length seed_Patients = 2 /\ List.length seed_Doctors = 2
      /\ List.length seed_Rooms = 3)%nat.
Proof.
  split; [reflexivity|]. split; [|split; [|split]; repeat split].
  rewrite (init_db_unfold s). unfold fst.
  destruct (seeds_settled s) as (FP & FD & FR).
  remember (seed_with insert_or_ignore_Rooms seed_Rooms
              (seed_with insert_or_ignore_Doctors seed_Doctors
                 (seed_with insert_or_ignore_Patients seed_Patients s))) as s3.
  clear Heqs3. rewrite (init_db_unfold s3). f_equal.
  unfold seed_with at 3.
  rewrite (fold_skips insert_or_ignore_Patients Patients_settled
             insert_or_ignore_Patients_skips seed_Patients s3 FP).
  unfold seed_with at 2.
  rewrite (fold_skips insert_or_ignore_Doctors Doctors_settled
             insert_or_ignore_Doctors_skips seed_Doctors s3 FD).
  unfold seed_with at 1.
  apply (fold_skips insert_or_ignore_Rooms Rooms_settled
           insert_or_ignore_Rooms_skips seed_Rooms s3 FR).
Qed.

(** ** Creating a patient *)

(** What [patient_new] does with a POST, case by case. *)
Lemma patient_new_cases (f : form) (s : store) :
  let full_name := strip (form_get_or f "full_name" "") in
  let gender := strip (form_get_or f "gender" "") in
  let email := strip (form_get_or f "email" "") in
  let out := patient_new POST f s in
  (full_name = EmptyString ->
   out = (s, mk_response (Some (Notice "Full name is required."))
               (Redirect "patient_new")))
  /\ (full_name <> EmptyString -> gender_check (Some gender) = false ->
      out = (s, mk_response
                  (Some (Failure "Could not add patient: "
                           (IntegrityError (CheckFailed "Patients"))))
                  (Redirect "patients")))
  /\ (full_name <> EmptyString -> gender_check (Some gender) = true ->
      email_taken s (Some email) = true ->
      out = (s, mk_response
                  (Some (Failure "Could not add patient: "
                           (IntegrityError (UniqueFailed "Patients.email"))))
                  (Redirect "patients")))
  /\ (full_name <> EmptyString -> gender_check (Some gender) = true ->
      email_taken s (Some email) = false ->
      snd out = mk_response (Some (Notice "Patient added successfully."))
                  (Redirect "patients")
      /\ List.length (Patients (fst out)) = S (List.length (Patients s))).
Proof.
  cbv zeta. unfold patient_new, execute, insert_Patients.
  remember (strip (form_get_or f "full_name" "")) as nm eqn:En.
  remember (strip (form_get_or f "gender" "")) as g eqn:Eg.
  remember (strip (form_get_or f "email" "")) as em eqn:Ee.
  remember (gender_check (Some g)) as gc eqn:G.
  remember (email_taken s (Some em)) as et eqn:E.
  destruct nm as [|c n]; cbn [truthy negb].
  - repeat split; intros; congruence.
  - split; [discriminate|].
    destruct gc, et; cbn [negb fst snd]; repeat split; intros;
      try congruence; try reflexivity.
    + cbn [Patients with_Patients]. apply insert_row_length.
Qed.

(** A blank gender reaches the CHECK as the empty text, which it rejects. *)
Lemma blank_gender_fails_check : gender_check (Some (strip "")) = false.
Proof. reflexivity. Qed.

(** C8, where the code parts from the claim.  On the seeded database the
    form with a name and blank optional fields is refused by the CHECK on
    gender and stores nothing; and once a patient with a blank email is
    stored, the next one with a blank email is refused by the UNIQUE index
    on email. *)
Theorem patient_new_blank_fields_refused :
  patient_new POST name_only seeded
  = (seeded,
     mk_response (Some (Failure "Could not add patient: "
                          (IntegrityError (CheckFailed "Patients"))))
       (Redirect "patients"))
  /\ snd (patient_new POST (name_and_gender "Carol Silva") seeded)
     = mk_response (Some (Notice "Patient added successfully."))
         (Redirect "patients")
  /\ patient_new POST (name_and_gender "Dinesh Kumar")
       (fst (patient_new POST (name_and_gender "Carol Silva") seeded))
     = (fst (patient_new POST (name_and_gender "Carol Silva") seeded),
        mk_response (Some (Failure "Could not add patient: "
                             (IntegrityError (UniqueFailed "Patients.email"))))
          (Redirect "patients")).
Proof. repeat split. Qed.

(** ** Two appointments of one patient at one time *)

(** C10. After [patient_twice] both bookings went through, and the store
    holds two different appointments of patient 1 at [slot], neither of
    them cancelled. *)
Theorem patient_double_booking_allowed :
  let s := run patient_twice empty_store in
  created patient_twice empty_store = 2%nat
  /\ exists a b,
       In a (Appointments s) /\ In b (Appointments s) /\ a <> b
       /\ Appointment.patient_id a = Appointment.patient_id b
       /\ Appointment.start_time a = Appointment.start_time b
       /\ Appointment.doctor_id a <> Appointment.doctor_id b
       /\ Appointment.room_id b = None
       /\ Appointment.status a <> Cancelled
       /\ Appointment.status b <> Cancelled.
Proof.
  split; [reflexivity|].
  exists (Appointment.mk 1 1 1 None slot None (Some EmptyString) Booked),
         (Appointment.mk 2 1 2 None slot None (Some EmptyString) Booked).
  simpl. repeat split; auto; discriminate.
Qed.

(** * Further properties *)

(** ** ORDER BY *)

Section OrderBy.
Context {A : Type} (leb : A -> A -> bool).

Lemma insert_sorted_perm (x : A) (l : list A) :
  Permutation (x :: l) (insert_sorted leb x l).
Proof.
  induction l as [|y l IH]; simpl; [reflexivity|].
  destruct (leb x y); [reflexivity|].
  rewrite perm_swap. now constructor.
Qed.

Lemma order_by_perm (l : list A) : Permutation l (order_by leb l).
Proof.
  induction l as [|x l IH]; simpl; [constructor|].
  rewrite <- insert_sorted_perm. now constructor.
Qed.

Hypothesis leb_total : forall x y, leb x y = true \/ leb y x = true.
Hypothesis leb_trans :
  forall x y z, leb x y = true -> leb y z = true -> leb x z = true.

Lemma insert_sorted_sorted (x : A) (l : list A) :
  StronglySorted (fun a b => leb a b = true) l ->
  StronglySorted (fun a b => leb a b = true) (insert_sorted leb x l).
Proof.
  induction 1 as [|y l S IH F]; simpl.
  - constructor; constructor.
  - destruct (leb x y) eqn:E.
    + constructor; [now constructor|].
      constructor; [assumption|].
      revert F. apply Forall_impl. intros z. now apply leb_trans.
    + constructor; [assumption|].
      apply (Permutation_Forall (insert_sorted_perm x l)).
      constructor; [|assumption].
      destruct (leb_total x y); congruence.
Qed.

Lemma order_by_sorted (l : list A) :
  StronglySorted (fun a b => leb a b = true) (order_by leb l).
Proof.
  induction l as [|x l IH]; simpl; [constructor|].
  now apply insert_sorted_sorted.
Qed.

End OrderBy.

Lemma by_name_sorted {A : Type} (name : A -> string) (l : list A) :
  StronglySorted (fun a b => String.leb (name a) (name b) = true)
    (order_by (fun a b => String.leb (name a) (name b)) l).
Proof.
  apply (order_by_sorted (fun a b => String.leb (name a) (name b))).
  - intros x y. apply String.leb_total.
  - intros x y z. apply string_leb_trans.
Qed.

(** ** The listings *)

(** X11.  The routes /patients and /doctors show every row of their table, once
    each, by full name ascending; /appointments shows the rows of the join
    by start time descending. *)
Theorem listings_ordered (s : store) :
  (Permutation (Patients s) (patients s)
   /\ StronglySorted (fun a b => String.leb (Patient.full_name a)
                                            (Patient.full_name b) = true)
        (patients s))
  /\ (Permutation (Doctors s) (doctors s)
      /\ StronglySorted (fun a b => String.leb (Doctor.full_name a)
                                               (Doctor.full_name b) = true)
           (doctors s))
  /\ (Permutation (appointments_join s) (appointments s)
      /\ StronglySorted (fun a b => String.leb (AppointmentView.start_time b)
                                               (AppointmentView.start_time a)
                                    = true)
           (appointments s)).
Proof.
  repeat split; try apply order_by_perm.
  - apply (by_name_sorted Patient.full_name).
  - apply (by_name_sorted Doctor.full_name).
  - unfold appointments.
    apply (order_by_sorted
             (fun x y => String.leb (AppointmentView.start_time y)
                                    (AppointmentView.start_time x))).
    + intros x y. apply String.leb_total.
    + intros x y z H1 H2. eapply string_leb_trans; eauto.
Qed.

(** ** Primary keys and UNIQUE columns over histories *)

Lemma existsb_false_not_In {A : Type} (key : A -> Z) (l : list A) (x : Z) :
  existsb (fun a => key a =? x) l = false -> ~ In x (map key l).
Proof.
  intros H I. apply in_map_iff in I. destruct I as (a & E & Ia).
  assert (existsb (fun a => key a =? x) l = true).
  { apply existsb_exists. exists a. split; [assumption|]. now apply Z.eqb_eq. }
  congruence.
Qed.

Lemma emails_insert (r : Patient.row) (t : list Patient.row) :
  existsb (fun p => same_text (Patient.email p) (Patient.email r)) t = false ->
  (forall p q e, In p t -> In q t ->
     Patient.email p = Some e -> Patient.email q = Some e -> p = q) ->
  forall p q e,
    In p (insert_row Patient.patient_id r t) ->
    In q (insert_row Patient.patient_id r t) ->
    Patient.email p = Some e -> Patient.email q = Some e -> p = q.
Proof.
  intros N U p q e Hp Hq Ep Eq.
  assert (X : forall x, In x t -> Patient.email x = Some e ->
                        Patient.email r = Some e -> False).
  { intros x Hx Ex Er.
    assert (existsb (fun p => same_text (Patient.email p) (Patient.email r)) t
            = true).
    { apply existsb_exists. exists x. split; [assumption|].
      rewrite Ex, Er. simpl. apply String.eqb_refl. }
    congruence. }
  apply insert_row_In in Hp. apply insert_row_In in Hq.
  destruct Hp as [->|Hp], Hq as [->|Hq].
  - reflexivity.
  - exfalso. eapply X; eauto.
  - exfalso. eapply X; eauto.
  - eapply U; eauto.
Qed.

Lemma numbers_insert (r : Room.row) (t : list Room.row) :
  existsb (fun x => str_eqb (Room.room_number x) (Room.room_number r)) t = false ->
  (forall p q, In p t -> In q t ->
     Room.room_number p = Room.room_number q -> p = q) ->
  forall p q,
    In p (insert_row Room.room_id r t) -> In q (insert_row Room.room_id r t) ->
    Room.room_number p = Room.room_number q -> p = q.
Proof.
  intros N U p q Hp Hq E.
  assert (X : forall x, In x t ->
                        Room.room_number x = Room.room_number r -> False).
  { intros x Hx Ex.
    assert (existsb (fun x => str_eqb (Room.room_number x) (Room.room_number r)) t
            = true).
    { apply existsb_exists. exists x. split; [assumption|].
      now apply str_eqb_eq. }
    congruence. }
  apply insert_row_In in Hp. apply insert_row_In in Hq.
  destruct Hp as [->|Hp], Hq as [->|Hq].
  - reflexivity.
  - exfalso. eapply X; eauto.
  - exfalso. eapply X; eauto.
  - eapply U; eauto.
Qed.

Lemma keyed_empty : keyed empty_store.
Proof. constructor; simpl; try constructor; intros; contradiction. Qed.

(** [keyed] looks at the three parent tables only. *)
Lemma keyed_same_tables (s s' : store) :
  Patients s' = Patients s -> Doctors s' = Doctors s -> Rooms s' = Rooms s ->
  keyed s -> keyed s'.
Proof.
  intros EP ED ER [A B C D E]. constructor; rewrite ?EP, ?ED, ?ER; assumption.
Qed.

Lemma insert_or_ignore_Patients_keyed (r : Patient.row) (s : store) :
  keyed s -> keyed (insert_or_ignore_Patients r s).
Proof.
  intros K. unfold insert_or_ignore_Patients.
  destruct (negb (gender_check (Patient.gender r))) eqn:G; simpl;
    [now apply (keyed_same_tables s)|].
  destruct (has_patient s (Patient.patient_id r)) eqn:HP; simpl;
    [now apply (keyed_same_tables s)|].
  destruct (email_taken s (Patient.email r)) eqn:HE; simpl;
    [now apply (keyed_same_tables s)|].
  destruct K as [A B C D E]. constructor; simpl; auto.
  - apply insert_row_NoDup; [|assumption].
    now apply existsb_false_not_In.
  - now apply emails_insert.
Qed.

Lemma insert_or_ignore_Doctors_keyed (r : Doctor.row) (s : store) :
  keyed s -> keyed (insert_or_ignore_Doctors r s).
Proof.
  intros K. unfold insert_or_ignore_Doctors.
  destruct (has_doctor s (Doctor.doctor_id r)) eqn:HD; simpl;
    [now apply (keyed_same_tables s)|].
  destruct K as [A B C D E]. constructor; simpl; auto.
  apply insert_row_NoDup; [|assumption].
  now apply existsb_false_not_In.
Qed.

Lemma insert_or_ignore_Rooms_keyed (r : Room.row) (s : store) :
  keyed s -> keyed (insert_or_ignore_Rooms r s).
Proof.
  intros K. unfold insert_or_ignore_Rooms.
  destruct (has_room s (Room.room_id r)) eqn:HR; simpl;
    [now apply (keyed_same_tables s)|].
  destruct (room_number_taken s (Room.room_number r)) eqn:HN; simpl;
    [now apply (keyed_same_tables s)|].
  destruct K as [A B C D E]. constructor; simpl; auto.
  - apply insert_row_NoDup; [|assumption].
    now apply existsb_false_not_In.
  - now apply numbers_insert.
Qed.

Lemma seed_with_keyed {R : Type} (one : R -> store -> store) (rows : list R) :
  (forall r s, keyed s -> keyed (one r s)) ->
  forall s, keyed s -> keyed (seed_with one rows s).
Proof.
  intros H. unfold seed_with.
  induction rows as [|r rows IH]; simpl; intros s K; [assumption|].
  apply IH. now apply H.
Qed.

Lemma init_db_keyed (s : store) : keyed s -> keyed (fst (init_db s)).
Proof.
  intros K. rewrite init_db_unfold. unfold fst.
  apply seed_with_keyed; [exact insert_or_ignore_Rooms_keyed|].
  apply seed_with_keyed; [exact insert_or_ignore_Doctors_keyed|].
  apply seed_with_keyed; [exact insert_or_ignore_Patients_keyed|].
  assumption.
Qed.

Lemma insert_Patients_keyed (n : string) (b g ph em : option string) (s : store) :
  keyed s -> keyed (fst (execute (insert_Patients n b g ph em) s)).
Proof.
  intros K. unfold execute, insert_Patients.
  destruct (negb (gender_check g)); simpl; [assumption|].
  destruct (email_taken s em) eqn:HE; simpl; [assumption|].
  destruct K as [A B C D E]. constructor; simpl; auto.
  - apply insert_row_NoDup; [|assumption]. simpl. apply new_rowid_fresh.
  - now apply emails_insert.
Qed.

Lemma insert_Doctors_keyed (n sp : string) (s : store) :
  keyed s -> keyed (fst (execute (insert_Doctors n sp) s)).
Proof.
  intros [A B C D E]. unfold execute, insert_Doctors; simpl.
  constructor; simpl; auto.
  apply insert_row_NoDup; [|assumption]. simpl. apply new_rowid_fresh.
Qed.

Lemma insert_Rooms_keyed (n ty : string) (s : store) :
  keyed s -> keyed (fst (execute (insert_Rooms n ty) s)).
Proof.
  intros K. unfold execute, insert_Rooms.
  destruct (room_number_taken s n) eqn:HN; simpl; [assumption|].
  destruct K as [A B C D E]. constructor; simpl; auto.
  - apply insert_row_NoDup; [|assumption]. simpl. apply new_rowid_fresh.
  - now apply numbers_insert.
Qed.

Lemma execute_insert_Appointments_tables (p d : value) (r : option value)
    (t : string) (e n : option string) (now : string) (s : store) :
  let s' := fst (execute (insert_Appointments p d r t e n now) s) in
  Patients s' = Patients s /\ Doctors s' = Doctors s /\ Rooms s' = Rooms s.
Proof.
  simpl.
  destruct (execute_cases (insert_Appointments p d r t e n now) s)
    as [(a & s' & H & ->)|(x & H & ->)]; simpl; [|auto].
  apply insert_Appointments_Ok in H.
  destruct H as (pz & dz & rz & _ & _ & _ & _ & _ & _ & _ & ->).
  simpl. auto.
Qed.

Lemma delete_Patients_keyed (id : Z) (s : store) :
  keyed s -> keyed (delete_Patients id s).
Proof.
  intros [A B C D E]. unfold delete_Patients.
  destruct (has_patient s id); [|now constructor].
  constructor; simpl; auto.
  - now apply NoDup_map_filter.
  - intros p q e Hp Hq. apply filter_In in Hp, Hq. apply D; tauto.
Qed.

Lemma delete_Doctors_keyed (id : Z) (s : store) :
  keyed s -> keyed (delete_Doctors id s).
Proof.
  intros [A B C D E]. unfold delete_Doctors.
  destruct (has_doctor s id); [|now constructor].
  constructor; simpl; auto. now apply NoDup_map_filter.
Qed.

Lemma delete_Rooms_keyed (id : Z) (s : store) :
  keyed s -> keyed (delete_Rooms id s).
Proof.
  intros [A B C D E]. unfold delete_Rooms.
  destruct (has_room s id); [|now constructor].
  constructor; simpl; auto.
  - now apply NoDup_map_filter.
  - intros p q Hp Hq. apply filter_In in Hp, Hq. apply E; tauto.
Qed.

Lemma step_keyed (o : op) (s : store) : keyed s -> keyed (step o s).
Proof.
  intros K. destruct o; simpl.
  - now apply init_db_keyed.
  - unfold book_appointment.
    destruct (execute_insert_Appointments_tables (Integer patient_id)
                (Integer doctor_id) (option_map Integer room_id) start_time
                end_time (Some notes) now s) as (E1 & E2 & E3).
    now apply (keyed_same_tables s).
  - rewrite book_store.
    destruct (book_insert integer_affinity f now) as [st|] eqn:E; [|assumption].
    apply book_insert_shape in E. destruct E as (p & d & r & t & e & n & ->).
    destruct (execute_insert_Appointments_tables p d r t e n now s)
      as (E1 & E2 & E3).
    now apply (keyed_same_tables s).
  - unfold patient_new. destruct m; simpl; [assumption|].
    destruct (negb (truthy _)); simpl; [assumption|].
    match goal with
    | |- context [execute (insert_Patients ?a ?b ?c ?d ?e) s] =>
        pose proof (insert_Patients_keyed a b c d e s K) as H;
        destruct (execute (insert_Patients a b c d e) s) as [s' [x|x]]; exact H
    end.
  - now apply delete_Patients_keyed.
  - unfold doctor_new. destruct m; simpl; [assumption|].
    destruct (_ || _); simpl; [assumption|].
    now apply insert_Doctors_keyed.
  - now apply delete_Doctors_keyed.
  - now apply insert_Rooms_keyed.
  - now apply delete_Rooms_keyed.
Qed.

Lemma run_keyed (ops : list op) (s : store) : keyed s -> keyed (run ops s).
Proof.
  revert s. induction ops as [|o ops IH]; simpl; intros s K; [assumption|].
  apply IH. now apply step_keyed.
Qed.

(** X2.  After any history from the empty database no two patients, doctors or
    rooms share an id, no two patients share an email that is not NULL,
    and no two rooms share a room number. *)
Theorem unique_keys (ops : list op) :
  let s := run ops empty_store in
  NoDup (map Patient.patient_id (Patients s))
  /\ NoDup (map Doctor.doctor_id (Doctors s))
  /\ NoDup (map Room.room_id (Rooms s))
  /\ (forall p q e, In p (Patients s) -> In q (Patients s) ->
        Patient.email p = Some e -> Patient.email q = Some e -> p = q)
  /\ (forall r q, In r (Rooms s) -> In q (Rooms s) ->
        Room.room_number r = Room.room_number q -> r = q).
Proof.
  destruct (run_keyed ops empty_store keyed_empty) as [A B C D E].
  simpl. repeat split; assumption.
Qed.

(** ** Joins on a primary key *)

Lemma filter_none {A : Type} (q : A -> bool) (l : list A) :
  (forall x, In x l -> q x = false) -> filter q l = [].
Proof.
  induction l as [|x l IH]; simpl; intros H; [reflexivity|].
  rewrite (H x (or_introl eq_refl)). apply IH. auto.
Qed.

(** A key that is unique in its table selects one row. *)
Lemma filter_key_unique {A : Type} (key : A -> Z) (l : list A) (x : A) :
  NoDup (map key l) -> In x l -> filter (fun y => key x =? key y) l = [x].
Proof.
  induction l as [|y l IH]; simpl; intros N I; [contradiction|].
  inversion N as [|? ? Ny Nl]; subst.
  destruct I as [->|I].
  - rewrite Z.eqb_refl. f_equal. apply filter_none.
    intros z Hz. apply Z.eqb_neq. intros E. apply Ny. rewrite E.
    now apply in_map.
  - destruct (Z.eqb_spec (key x) (key y)) as [E|E].
    + exfalso. apply Ny. rewrite <- E. now apply in_map.
    + now apply IH.
Qed.

Section CountJoin.
Context {P A : Type} (pkey : P -> Z) (fk : A -> option Z) (sel : A -> bool).

Local Abbreviation joins := (joins pkey fk).
Local Abbreviation join_count := (join_count pkey fk sel).
Local Abbreviation join_sum := (join_sum pkey fk sel).

Lemma join_sum_nil (ps : list P) : join_sum ps [] = 0.
Proof. induction ps as [|p ps IH]; simpl; [reflexivity|]. rewrite IH. reflexivity. Qed.

Lemma join_sum_cons (ps : list P) (a : A) (rows : list A) :
  join_sum ps (a :: rows)
  = Z.of_nat (List.length (filter (fun p => joins p a && sel a) ps))
    + join_sum ps rows.
Proof.
  induction ps as [|p ps IH]; simpl; [reflexivity|].
  rewrite IH. unfold join_count. simpl.
  destruct (joins p a && sel a); simpl List.length; lia.
Qed.

(** When every foreign key that is not NULL names one parent row, the
    counts of the groups add up to the number of selected child rows that
    have a parent. *)
Lemma join_sum_total (ps : list P) (rows : list A) :
  NoDup (map pkey ps) ->
  (forall a k, In a rows -> fk a = Some k -> In k (map pkey ps)) ->
  join_sum ps rows
  = Z.of_nat (List.length
                (filter (fun a => match fk a with
                                  | Some _ => sel a
                                  | None => false
                                  end) rows)).
Proof.
  intros N. induction rows as [|a rows IH]; intros F.
  - apply join_sum_nil.
  - rewrite join_sum_cons, IH by (intros; eapply F; [right|]; eauto).
    assert (E : List.length (filter (fun p => joins p a && sel a) ps)
                = if match fk a with Some _ => sel a | None => false end
                  then 1%nat else 0%nat).
    { unfold joins. destruct (fk a) as [k|] eqn:Ek.
      - destruct (sel a).
        + specialize (F a k (or_introl eq_refl) Ek).
          apply in_map_iff in F. destruct F as (p0 & <- & I0).
          erewrite filter_ext;
            [rewrite (filter_key_unique pkey ps p0 N I0); reflexivity|].
          intros p. simpl. now rewrite andb_true_r.
        + rewrite filter_none; [reflexivity|].
          intros. apply andb_false_r.
      - rewrite filter_none; [reflexivity|]. reflexivity. }
    rewrite E. simpl filter.
    destruct (match fk a with Some _ => sel a | None => false end);
      simpl List.length; lia.
Qed.

End CountJoin.

Lemma report_total_perm (l l' : list (string * Z)) :
  Permutation l l' -> report_total l = report_total l'.
Proof.
  induction 1; simpl; lia.
Qed.

Lemma report_total_map {P : Type} (name : P -> string) (count : P -> Z)
    (ps : list P) :
  report_total (map (fun p => (name p, count p)) ps)
  = fold_right (fun p acc => count p + acc) 0 ps.
Proof.
  induction ps as [|p ps IH]; simpl; [reflexivity|]. now rewrite IH.
Qed.

Lemma fold_count_ext {P : Type} (f g : P -> Z) (ps : list P) :
  (forall p, f p = g p) ->
  fold_right (fun p acc => f p + acc) 0 ps
  = fold_right (fun p acc => g p + acc) 0 ps.
Proof.
  intros H. induction ps as [|p ps IH]; simpl; [reflexivity|].
  now rewrite H, IH.
Qed.

Lemma references_doctor (s : store) :
  references_ok s = true ->
  forall a k, In a (Appointments s) -> Some (Appointment.doctor_id a) = Some k ->
              In k (map Doctor.doctor_id (Doctors s)).
Proof.
  intros H a k Ha E. injection E as <-.
  rewrite references_ok_iff in H.
  destruct (foreign_keys_hold_parts s a (H a Ha)) as (_ & Hd & _).
  apply has_doctor_iff in Hd. destruct Hd as (d & Id & Ed).
  rewrite <- Ed. now apply in_map.
Qed.

Lemma references_room (s : store) :
  references_ok s = true ->
  forall a k, In a (Appointments s) -> Appointment.room_id a = Some k ->
              In k (map Room.room_id (Rooms s)).
Proof.
  intros H a k Ha E.
  rewrite references_ok_iff in H.
  destruct (foreign_keys_hold_parts s a (H a Ha)) as (_ & _ & Hr).
  specialize (Hr k E).
  apply has_room_iff in Hr. destruct Hr as (d & Id & Ed).
  rewrite <- Ed. now apply in_map.
Qed.

Lemma total_appointments_join (s : store) (d : Doctor.row) :
  total_appointments s d
  = join_count Doctor.doctor_id (fun a => Some (Appointment.doctor_id a))
      not_cancelled (Appointments s) d.
Proof.
  unfold total_appointments, join_count, joins. do 2 f_equal.
  apply filter_ext. intros a. now rewrite Z.eqb_sym.
Qed.

(** X13.  After any history from the empty database the counts of the per-doctor
    report add up to the number of appointments that are not cancelled,
    which is the third of the global counts: no appointment is counted
    twice and none is left out. *)
Theorem per_doctor_report_adds_up (ops : list op) :
  let s := run ops empty_store in
  report_total (report_appointments_per_doctor s) = count_appts (global_counts s).
Proof.
  simpl. set (s := run ops empty_store).
  pose proof (references_ok_iff s) as R.
  assert (Rk : references_ok s = true).
  { apply references_ok_iff.
    apply (references_hold _ (run_consistent ops empty_store consistent_empty)). }
  destruct (run_keyed ops empty_store keyed_empty) as [_ ND _ _ _].
  fold s in ND.
  unfold report_appointments_per_doctor.
  rewrite <- (report_total_perm _ _ (ReportSort.Permuted_sort _)).
  rewrite report_total_map.
  rewrite (fold_count_ext _ _ _ (total_appointments_join s)).
  change (join_sum Doctor.doctor_id (fun a => Some (Appointment.doctor_id a))
            not_cancelled (Doctors s) (Appointments s)
          = Z.of_nat (List.length (filter not_cancelled (Appointments s)))).
  rewrite (join_sum_total _ _ _ _ _ ND (references_doctor s Rk)).
  reflexivity.
Qed.

(** ** A booking that went through *)

Lemma book_appointment_Ok (s : store) (p d : Z) (t : string) (e : option string)
    (r : option Z) (n now : string) (id : Z) :
  snd (book_appointment p d t e r n now s) = Ok id ->
  let s' := fst (book_appointment p d t e r n now s) in
  Appointments s' = Appointments s ++ [Appointment.mk id p d r t e (Some n) Booked]
  /\ Patients s' = Patients s /\ Doctors s' = Doctors s /\ Rooms s' = Rooms s
  /\ seq_Appointments (sequence s') = id
  /\ seq_Appointments (sequence s) < id
  /\ (forall a, In a (Appointments s) -> Appointment.appointment_id a < id)
  /\ foreign_keys_hold s (Appointment.mk id p d r t e (Some n) Booked) = true
  /\ ~ doctor_conflict s d t /\ ~ room_conflict s r t.
Proof.
  unfold book_appointment. intros H.
  destruct (execute_cases (insert_Appointments (Integer p) (Integer d)
              (option_map Integer r) t e (Some n) now) s)
    as [(a & s' & E1 & E)|(x & _ & E)]; rewrite E in *; simpl in H;
    [|discriminate].
  injection H as ->. simpl fst.
  apply insert_Appointments_Ok in E1.
  destruct E1 as (pz & dz & rz & Ep & Ed & Er & Td & Tr & Hid & Hfk & ->).
  injection Ep as <-. injection Ed as <-.
  assert (rz = r) as ->.
  { destruct r, rz; simpl in Er; try discriminate; [|reflexivity].
    now injection Er as ->. }
  assert (Hi : forall a, In a (Appointments s) -> Appointment.appointment_id a < id).
  { intros a Ha. rewrite Hid. apply new_rowid_above. now apply in_map. }
  simpl. repeat split; auto.
  - now apply insert_row_last.
  - rewrite Hid. apply new_rowid_above_seq.
  - intros C. apply trg_no_double_book_doctor_true in C. congruence.
  - intros C. apply trg_no_double_book_room_true in C. congruence.
Qed.

(** ** Dates and the daily report *)

Lemma list_ascii_of_string_append (a b : string) :
  list_ascii_of_string (a ++ b) = list_ascii_of_string a ++ list_ascii_of_string b.
Proof.
  induction a as [|c a IH]; simpl; [reflexivity|]. now rewrite IH.
Qed.

Lemma first_chars_plain (l rest : list ascii) :
  Forall (fun c => (0 < N_of_ascii c < 128)%N) l ->
  first_chars (List.length l) false (l ++ rest) = l.
Proof.
  induction 1 as [|c l Hc Hl IH]; simpl.
  - now destruct rest.
  - destruct (N.eqb_spec (N_of_ascii c) 0) as [E|E]; [lia|].
    unfold lead. destruct (N.leb_spec 192 (N_of_ascii c)); [lia|].
    now rewrite IH.
Qed.

Lemma first_chars_openers (n : nat) (inside : bool) (l : list ascii) :
  (openers (first_chars n inside l) <= n)%nat.
Proof.
  revert n inside. induction l as [|c l IH]; intros n inside; simpl.
  - unfold openers. simpl. lia.
  - destruct (inside && continuation c) eqn:E.
    + apply andb_true_iff in E. destruct E as [_ E].
      unfold openers in *. simpl. rewrite E. simpl. apply IH.
    + destruct n as [|n]; [unfold openers; simpl; lia|].
      destruct (N_of_ascii c =? 0)%N; [unfold openers; simpl; lia|].
      specialize (IH n (lead c)). unfold openers in *. simpl.
      destruct (negb (continuation c)); simpl; lia.
Qed.

Lemma plain_openers (l : list ascii) :
  Forall (fun c => (0 < N_of_ascii c < 128)%N) l -> openers l = List.length l.
Proof.
  unfold openers. induction 1 as [|c l Hc Hl IH]; [reflexivity|].
  assert (E : continuation c = false).
  { unfold continuation. destruct (N.leb_spec 128 (N_of_ascii c)); [lia|].
    reflexivity. }
  cbn [filter]. rewrite E. cbn [negb List.length]. now rewrite IH.
Qed.

(** X15.  How [substr(start_time, 1, 10) = ?] takes a date made of ASCII
    characters.  A date of ten characters matches every start time that
    begins with it; a text of more than ten characters, such as a full
    timestamp, matches no start time at all, so every room of the daily
    report shows 0. *)
Theorem date_prefix_matching (date : string) :
  plain_ascii date ->
  (String.length date = 10%nat ->
   forall rest, substr_1_10 (date ++ rest) = date)
  /\ ((10 < String.length date)%nat ->
      (forall x, substr_1_10 x <> date)
      /\ forall s r, daily_total s date r = 0).
Proof.
  unfold plain_ascii. intros P. split.
  - intros L rest. unfold substr_1_10.
    rewrite list_ascii_of_string_append.
    replace 10%nat with (List.length (list_ascii_of_string date)).
    + rewrite first_chars_plain by assumption.
      apply string_of_list_ascii_of_string.
    + rewrite <- L. clear. induction date; simpl; auto.
  - intros L.
    assert (N : forall x, substr_1_10 x <> date).
    { intros x E. unfold substr_1_10 in E.
      pose proof (first_chars_openers 10 false (list_ascii_of_string x)) as O.
      apply (f_equal list_ascii_of_string) in E.
      rewrite list_ascii_of_string_of_list_ascii in E.
      rewrite E, (plain_openers _ P) in O.
      assert (List.length (list_ascii_of_string date) = String.length date)
        by (clear; induction date; simpl; auto).
      lia. }
    split; [exact N|].
    intros s r. unfold daily_total.
    rewrite filter_none; [reflexivity|].
    intros a _.
    assert (str_eqb (substr_1_10 (Appointment.start_time a)) date = false).
    { apply String.eqb_neq. apply N. }
    rewrite H. now rewrite andb_false_r.
Qed.

(** The date of the example slot. *)
Lemma date_prefix_matching_slot :
  substr_1_10 ("2025-08-30" ++ " 09:00") = "2025-08-30"%string
  /\ forall s r, daily_total s slot r = 0.
Proof.
  assert (P : plain_ascii "2025-08-30").
  { unfold plain_ascii. simpl. repeat constructor. }
  assert (Q : plain_ascii slot).
  { unfold plain_ascii, slot. simpl. repeat constructor. }
  split.
  - apply (proj1 (date_prefix_matching "2025-08-30" P)). reflexivity.
  - apply (proj2 (date_prefix_matching slot Q)). unfold slot. simpl. lia.
Defined.

Lemma daily_total_join (s : store) (date : string) (r : Room.row) :
  daily_total s date r
  = join_count Room.room_id Appointment.room_id
      (fun a => str_eqb (substr_1_10 (Appointment.start_time a)) date
                && not_cancelled a)
      (Appointments s) r.
Proof.
  unfold daily_total, join_count, joins, room_is. do 2 f_equal.
  apply filter_ext. intros a. now rewrite andb_assoc.
Qed.

(** X14.  [report_daily_utilization] has one row per room, rooms without a
    matching appointment included, by room number ascending.  After any
    history from the empty database its counts add up to the number of
    appointments that have a room, are not cancelled and start on that
    date. *)
Theorem daily_utilization_report (date : string) :
  (forall s,
     Permutation
       (map (fun r => (Room.room_number r, daily_total s date r)) (Rooms s))
       (report_daily_utilization date s)
     /\ StronglySorted (fun x y => String.leb (fst x) (fst y) = true)
          (report_daily_utilization date s))
  /\ (forall ops,
        let s := run ops empty_store in
        report_total (report_daily_utilization date s)
        = Z.of_nat (List.length
                      (filter (fun a =>
                                 match Appointment.room_id a with
                                 | Some _ =>
                                     str_eqb (substr_1_10 (Appointment.start_time a))
                                             date
                                     && not_cancelled a
                                 | None => false
                                 end)
                              (Appointments s)))).
Proof.
  split.
  - intros s. split; [apply order_by_perm|].
    apply (by_name_sorted (fun x : string * Z => fst x)).
  - intros ops. simpl. set (s := run ops empty_store).
    assert (Rk : references_ok s = true).
    { apply references_ok_iff.
      apply (references_hold _ (run_consistent ops empty_store consistent_empty)). }
    destruct (run_keyed ops empty_store keyed_empty) as [_ _ ND _ _].
    fold s in ND.
    unfold report_daily_utilization.
    rewrite <- (report_total_perm _ _ (order_by_perm _ _)).
    rewrite report_total_map.
    rewrite (fold_count_ext _ _ _ (daily_total_join s date)).
    apply (join_sum_total Room.room_id Appointment.room_id _ _ _ ND
             (references_room s Rk)).
Qed.

Lemma StronglySorted_app_inv {A : Type} (R : A -> A -> Prop) (l1 l2 : list A) :
  StronglySorted R (l1 ++ l2) ->
  StronglySorted R l1 /\ forall x y, In x l1 -> In y l2 -> R x y.
Proof.
  induction l1 as [|a l1 IH]; simpl; intros H.
  - split; [constructor|]. intros x y [].
  - inversion H as [|? ? S F]; subst. destruct (IH S) as [S1 C].
    split.
    + constructor; [assumption|].
      apply Forall_forall. intros z Hz.
      apply (proj1 (Forall_forall _ _) F). apply in_or_app. now left.
    + intros x y [<-|Hx] Hy.
      * apply (proj1 (Forall_forall _ _) F). apply in_or_app. now right.
      * now apply C.
Qed.

(** X16.  The room table of [reports] shows at most ten rooms, in report order,
    each with its count of appointments that are not cancelled; the rooms
    it leaves out are rooms that may come after every room it shows. *)
Theorem by_room_top_ten (s : store) :
  List.length (by_room s) = Nat.min 10 (List.length (Rooms s))
  /\ StronglySorted report_before (by_room s)
  /\ exists rest,
       Permutation
         (map (fun r => (Room.room_number r, room_total s r)) (Rooms s))
         (by_room s ++ rest)
       /\ forall x y, In x (by_room s) -> In y rest -> report_before x y.
Proof.
  unfold by_room.
  set (rows := map (fun r => (Room.room_number r, room_total s r)) (Rooms s)).
  assert (S : StronglySorted report_before (ReportSort.sort rows)).
  { apply (StronglySorted_impl (fun x y => is_true (ReportOrder.leb x y))).
    - intros x y. apply report_leb_iff.
    - apply ReportSort.StronglySorted_sort. exact report_leb_trans. }
  rewrite <- (firstn_skipn 10 (ReportSort.sort rows)) in S.
  apply StronglySorted_app_inv in S. destruct S as [S1 S2].
  split; [|split; [exact S1|]].
  - rewrite length_firstn.
    rewrite <- (Permutation_length (ReportSort.Permuted_sort rows)).
    unfold rows. now rewrite length_map.
  - exists (skipn 10 (ReportSort.sort rows)). split; [|exact S2].
    rewrite firstn_skipn. apply ReportSort.Permuted_sort.
Qed.

(** X17.  A booking that went through shows in the reports: the count of its
    doctor goes up by one and no other doctor's count moves; for every
    date, the daily count of its room goes up by one when the start time
    falls on that date, and no other daily count moves; and the global
    count of appointments goes up by one. *)
Theorem booking_shows_in_reports (s : store) (p d : Z) (t : string)
    (e : option string) (r : option Z) (n now : string) (id : Z) :
  snd (book_appointment p d t e r n now s) = Ok id ->
  let s' := fst (book_appointment p d t e r n now s) in
  (forall doc, total_appointments s' doc
               = total_appointments s doc
                 + (if Doctor.doctor_id doc =? d then 1 else 0))
  /\ (forall date room,
        daily_total s' date room
        = daily_total s date room
          + (if match r with
                | Some x => (x =? Room.room_id room)
                            && str_eqb (substr_1_10 t) date
                | None => false
                end
             then 1 else 0))
  /\ count_appts (global_counts s') = count_appts (global_counts s) + 1.
Proof.
  intros H. destruct (book_appointment_Ok s p d t e r n now id H)
    as (A & _). simpl.
  unfold total_appointments, daily_total, global_counts. rewrite A. simpl.
  repeat split; intros; rewrite filter_app, length_app; simpl.
  - unfold not_cancelled at 2. simpl. rewrite andb_true_r.
    destruct (Doctor.doctor_id doc =? d); simpl; lia.
  - unfold not_cancelled at 2, room_is at 2. simpl. rewrite andb_true_r.
    destruct r as [x|]; simpl; [|lia].
    destruct ((x =? Room.room_id room)
              && str_eqb (substr_1_10 t) date); simpl; lia.
  - lia.
Qed.

(** On the seeded database a first booking in room 1 counts for doctor 1
    and for room 1 on its date. *)
Lemma booking_shows_in_reports_seeded :
  let s' := fst (book_appointment 1 1 slot None (Some 1) "" clock seeded) in
  (forall doc, total_appointments s' doc
               = total_appointments seeded doc
                 + (if Doctor.doctor_id doc =? 1 then 1 else 0))
  /\ count_appts (global_counts s') = 1.
Proof.
  destruct (booking_shows_in_reports seeded 1 1 slot None (Some 1) "" clock 1
              eq_refl) as (A & _ & C).
  split; [exact A|]. rewrite C. reflexivity.
Defined.

(** ** The list of appointments *)

Lemma appointments_join_ids (s : store) :
  keyed s -> references_ok s = true ->
  map AppointmentView.appointment_id (appointments_join s)
  = map Appointment.appointment_id (Appointments s).
Proof.
  intros [NP ND _ _ _] R. rewrite references_ok_iff in R.
  unfold appointments_join.
  induction (Appointments s) as [|a l IH]; [reflexivity|].
  cbn [flat_map]. rewrite map_app, IH by (intros; apply R; now right).
  cbn [map]. change (?x :: ?y) with ([x] ++ y). f_equal.
  destruct (foreign_keys_hold_parts s a (R a (or_introl eq_refl)))
    as (Hp & Hd & _).
  apply has_patient_iff in Hp. destruct Hp as (p & Ip & Ep).
  apply has_doctor_iff in Hd. destruct Hd as (d & Id & Ed).
  rewrite <- Ep, <- Ed.
  rewrite (filter_key_unique Patient.patient_id _ p NP Ip).
  rewrite (filter_key_unique Doctor.doctor_id _ d ND Id).
  reflexivity.
Qed.

(** X12.  After any history from the empty database /appointments shows every
    appointment exactly once, cancelled ones included; each line carries
    the names of the appointment's own patient and doctor, and the empty
    text where end time or notes are NULL. *)
Theorem appointments_listing (ops : list op) :
  let s := run ops empty_store in
  Permutation (map Appointment.appointment_id (Appointments s))
              (map AppointmentView.appointment_id (appointments s))
  /\ forall v, In v (appointments s) ->
       exists a p d,
         In a (Appointments s) /\ In p (Patients s) /\ In d (Doctors s)
         /\ Patient.patient_id p = Appointment.patient_id a
         /\ Doctor.doctor_id d = Appointment.doctor_id a
         /\ v = AppointmentView.mk (Appointment.appointment_id a)
                  (Patient.full_name p) (Doctor.full_name d)
                  (Appointment.start_time a)
                  (match Appointment.end_time a with
                   | Some x => x
                   | None => EmptyString
                   end)
                  (Appointment.status a)
                  (match Appointment.notes a with
                   | Some x => x
                   | None => EmptyString
                   end).
Proof.
  simpl. set (s := run ops empty_store). split.
  - rewrite <- (appointments_join_ids s).
    + apply Permutation_map. apply order_by_perm.
    + apply (run_keyed ops empty_store keyed_empty).
    + apply references_ok_iff.
      apply (references_hold _ (run_consistent ops empty_store consistent_empty)).
  - intros v Hv.
    apply (Permutation_in _ (Permutation_sym (order_by_perm _ _))) in Hv.
    unfold appointments_join in Hv.
    apply in_flat_map in Hv. destruct Hv as (a & Ia & Hv).
    apply in_flat_map in Hv. destruct Hv as (p & Ip & Hv).
    apply in_map_iff in Hv. destruct Hv as (d & Ev & Id).
    apply filter_In in Ip. destruct Ip as (Ip & Ep).
    apply filter_In in Id. destruct Id as (Id & Ed).
    apply Z.eqb_eq in Ep, Ed.
    exists a, p, d. repeat split; auto.
Qed.

(** ** The ids of appointments *)

Lemma seed_with_frame {R B : Type} (f : store -> B) (one : R -> store -> store)
    (rows : list R) :
  (forall r s, f (one r s) = f s) -> forall s, f (seed_with one rows s) = f s.
Proof.
  intros H. unfold seed_with.
  induction rows as [|r rows IH]; simpl; intros s; [reflexivity|].
  now rewrite IH, H.
Qed.

(** [init_db] leaves Appointments and its sequence alone. *)
Lemma init_db_appointments (s : store) :
  Appointments (fst (init_db s)) = Appointments s
  /\ seq_Appointments (sequence (fst (init_db s))) = seq_Appointments (sequence s).
Proof.
  rewrite init_db_unfold. unfold fst. split.
  - rewrite (seed_with_frame Appointments), (seed_with_frame Appointments),
      (seed_with_frame Appointments); [reflexivity| | |]; intros r x.
    + unfold insert_or_ignore_Patients. now destruct (_ || _ || _).
    + unfold insert_or_ignore_Doctors. now destruct (has_doctor _ _).
    + unfold insert_or_ignore_Rooms. now destruct (_ || _).
  - rewrite (seed_with_frame (fun x => seq_Appointments (sequence x))),
      (seed_with_frame (fun x => seq_Appointments (sequence x))),
      (seed_with_frame (fun x => seq_Appointments (sequence x)));
      [reflexivity| | |]; intros r x.
    + unfold insert_or_ignore_Patients. now destruct (_ || _ || _).
    + unfold insert_or_ignore_Doctors. now destruct (has_doctor _ _).
    + unfold insert_or_ignore_Rooms. now destruct (_ || _).
Qed.

(** What an INSERT INTO Appointments does to the table and its sequence. *)
Lemma execute_insert_Appointments_seq (p d : value) (r : option value)
    (t : string) (e n : option string) (now : string) (s : store) :
  let out := execute (insert_Appointments p d r t e n now) s in
  let id := new_rowid (seq_Appointments (sequence s))
                      (map Appointment.appointment_id (Appointments s)) in
  (is_ok (snd out) = false /\ fst out = s)
  \/ (snd out = Ok id
      /\ seq_Appointments (sequence (fst out)) = id
      /\ exists new, Appointment.appointment_id new = id
                     /\ Appointments (fst out) = Appointments s ++ [new]).
Proof.
  simpl.
  destruct (execute_cases (insert_Appointments p d r t e n now) s)
    as [(a & s' & H & ->)|(x & H & ->)]; simpl; [right|left; auto].
  apply insert_Appointments_Ok in H.
  destruct H as (pz & dz & rz & _ & _ & _ & _ & _ & Hid & _ & ->).
  subst a. simpl. repeat split.
  eexists. split; [|apply insert_row_last].
  - reflexivity.
  - intros x Hx. simpl. apply new_rowid_above. now apply in_map.
Qed.

(** What a step does to the ids of Appointments and to the sequence. *)
Lemma step_appointment_ids (o : op) (s : store) :
  let id := new_rowid (seq_Appointments (sequence s))
                      (map Appointment.appointment_id (Appointments s)) in
  (creates_appointment o s = false
   /\ seq_Appointments (sequence (step o s)) = seq_Appointments (sequence s)
   /\ forall x, In x (map Appointment.appointment_id (Appointments (step o s))) ->
                In x (map Appointment.appointment_id (Appointments s)))
  \/ (creates_appointment o s = true
      /\ seq_Appointments (sequence (step o s)) = id
      /\ exists new, Appointment.appointment_id new = id
                     /\ Appointments (step o s) = Appointments s ++ [new]).
Proof.
  assert (G : forall p d r t e n now,
            let out := execute (insert_Appointments p d r t e n now) s in
            let id := new_rowid (seq_Appointments (sequence s))
                        (map Appointment.appointment_id (Appointments s)) in
            (is_ok (snd out) = false
             /\ seq_Appointments (sequence (fst out)) = seq_Appointments (sequence s)
             /\ forall x, In x (map Appointment.appointment_id (Appointments (fst out))) ->
                          In x (map Appointment.appointment_id (Appointments s)))
            \/ (is_ok (snd out) = true
                /\ seq_Appointments (sequence (fst out)) = id
                /\ exists new, Appointment.appointment_id new = id
                               /\ Appointments (fst out) = Appointments s ++ [new])).
  { intros p d r t e n now.
    destruct (execute_insert_Appointments_seq p d r t e n now s)
      as [(A & B)|(A & B & C)]; simpl in *.
    - left. rewrite B. auto.
    - right. rewrite A. auto. }
  assert (Same : forall s', Appointments s' = Appointments s ->
                   seq_Appointments (sequence s') = seq_Appointments (sequence s) ->
                   seq_Appointments (sequence s') = seq_Appointments (sequence s)
                   /\ forall x, In x (map Appointment.appointment_id (Appointments s')) ->
                                In x (map Appointment.appointment_id (Appointments s))).
  { intros s' E1 E2. rewrite E1. auto. }
  destruct o; cbn [step creates_appointment patient_delete doctor_delete fst].
  - left. split; [reflexivity|].
    destruct (init_db_appointments s). now apply Same.
  - apply G.
  - rewrite book_store.
    destruct (book_insert integer_affinity f now) as [st|] eqn:E; [|left; auto].
    apply book_insert_shape in E. destruct E as (p & d & r & t & e & n & ->).
    apply G.
  - left. split; [reflexivity|]. apply Same.
    + apply (ext_Appointments _ _ (patient_new_extends m f s)).
    + unfold patient_new. destruct m; simpl; [reflexivity|].
      destruct (negb (truthy _)); simpl; [reflexivity|].
      unfold execute, insert_Patients.
      destruct (negb (gender_check _)); simpl; [reflexivity|].
      destruct (email_taken _ _); reflexivity.
  - left. split; [reflexivity|]. unfold delete_Patients.
    destruct (has_patient s patient_id); simpl; [|auto].
    split; [reflexivity|]. intros x Hx. apply in_map_iff in Hx.
    destruct Hx as (a & <- & Ha). apply filter_In in Ha. apply in_map. tauto.
  - left. split; [reflexivity|]. apply Same.
    + apply (ext_Appointments _ _ (doctor_new_extends m f s)).
    + unfold doctor_new. destruct m; simpl; [reflexivity|].
      destruct (_ || _); reflexivity.
  - left. split; [reflexivity|]. unfold delete_Doctors.
    destruct (has_doctor s doctor_id); simpl; [|auto].
    split; [reflexivity|]. intros x Hx. apply in_map_iff in Hx.
    destruct Hx as (a & <- & Ha). apply filter_In in Ha. apply in_map. tauto.
  - left. split; [reflexivity|]. apply Same.
    + apply (ext_Appointments _ _ (insert_Rooms_extends room_number room_type s)).
    + unfold execute, insert_Rooms.
      destruct (room_number_taken _ _); reflexivity.
  - left. split; [reflexivity|]. unfold delete_Rooms.
    destruct (has_room s room_id); simpl; [|auto].
    split; [reflexivity|]. intros x Hx. rewrite map_map in Hx.
    erewrite map_ext in Hx; [exact Hx|].
    intros a. apply (set_null_room_fields room_id a).
Qed.

Lemma run_sequence_mono (ops : list op) (s : store) :
  seq_Appointments (sequence s) <= seq_Appointments (sequence (run ops s)).
Proof.
  revert s. induction ops as [|o ops IH]; simpl; intros s; [lia|].
  specialize (IH (step o s)).
  destruct (step_appointment_ids o s) as [(_ & E & _)|(_ & E & _)].
  - lia.
  - pose proof (new_rowid_above_seq (seq_Appointments (sequence s))
                  (map Appointment.appointment_id (Appointments s))). lia.
Qed.

(** X3.  An appointment id is never handed out twice: whatever happens to the
    store after a booking, a deletion of that very appointment included, a
    later booking gets a larger id. *)
Theorem appointment_ids_never_reused (s : store) (ops : list op)
    (p d p' d' : Z) (t t' : string) (e e' : option string) (r r' : option Z)
    (n now n' now' : string) (id id' : Z) :
  snd (book_appointment p d t e r n now s) = Ok id ->
  snd (book_appointment p' d' t' e' r' n' now'
         (run ops (fst (book_appointment p d t e r n now s)))) = Ok id' ->
  id < id'.
Proof.
  intros H H'.
  destruct (book_appointment_Ok _ _ _ _ _ _ _ _ _ H) as (_ & _ & _ & _ & Q & _).
  destruct (book_appointment_Ok _ _ _ _ _ _ _ _ _ H')
    as (_ & _ & _ & _ & _ & Q' & _).
  pose proof (run_sequence_mono ops (fst (book_appointment p d t e r n now s))).
  lia.
Qed.

(** After a booking whose patient is then deleted, the next booking does
    not get the freed id 1. *)
Lemma appointment_ids_never_reused_after_delete :
  snd (book_appointment 2 2 slot None None "" clock
         (run [PatientDelete 1]
            (fst (book_appointment 1 1 slot None None "" clock seeded))))
  = Ok 2
  /\ 1 < 2.
Proof.
  split; [reflexivity|].
  apply (appointment_ids_never_reused seeded [PatientDelete 1]
           1 1 2 2 slot slot None None None None "" clock "" clock 1 2);
    reflexivity.
Defined.

Lemma run_counts_bookings (ops : list op) (s : store) :
  0 <= seq_Appointments (sequence s) -> sequence_covers s ->
  seq_Appointments (sequence (run ops s))
  = seq_Appointments (sequence s) + Z.of_nat (created ops s)
  /\ sequence_covers (run ops s).
Proof.
  revert s. induction ops as [|o ops IH]; simpl; intros s P C;
    [split; [lia|assumption]|].
  assert (N : new_rowid (seq_Appointments (sequence s))
                (map Appointment.appointment_id (Appointments s))
              = seq_Appointments (sequence s) + 1).
  { unfold new_rowid.
    destruct (largest_rowid (map Appointment.appointment_id (Appointments s)))
      as [v|] eqn:E; [|lia].
    assert (v <= seq_Appointments (sequence s)); [|lia].
    assert (In v (map Appointment.appointment_id (Appointments s))).
    { clear -E. revert v E.
      induction (map Appointment.appointment_id (Appointments s)) as [|x l IH];
        simpl; intros v E; [discriminate|].
      destruct (largest_rowid l) as [y|].
      - injection E as <-. destruct (Z.max_spec x y) as [[_ ->]|[_ ->]]; auto.
      - injection E as <-. auto. }
    apply in_map_iff in H. destruct H as (a & <- & Ha). now apply C. }
  destruct (step_appointment_ids o s) as [(Cr & E & I)|(Cr & E & new & En & A)];
    rewrite Cr.
  - destruct (IH (step o s)) as [Q1 Q2].
    + lia.
    + intros a Ha. rewrite E.
      assert (In (Appointment.appointment_id a)
                 (map Appointment.appointment_id (Appointments s)))
        by (apply I; now apply in_map).
      apply in_map_iff in H. destruct H as (b & <- & Hb). now apply C.
    + split; [lia|assumption].
  - destruct (IH (step o s)) as [Q1 Q2].
    + lia.
    + intros a Ha. rewrite A in Ha. apply in_app_or in Ha.
      destruct Ha as [Ha|[<-|[]]].
      * specialize (C a Ha). lia.
      * lia.
    + split; [lia|assumption].
Qed.

(** X4.  On a database that started empty the ids count the bookings: after a
    history that created k appointments, deleted ones included, the next
    booking that goes through returns k + 1. *)
Theorem booking_ids_count (ops : list op) (p d : Z) (t : string)
    (e : option string) (r : option Z) (n now : string) (id : Z) :
  snd (book_appointment p d t e r n now (run ops empty_store)) = Ok id ->
  id = Z.of_nat (created ops empty_store) + 1.
Proof.
  intros H.
  destruct (run_counts_bookings ops empty_store) as [Q C];
    [simpl; lia|intros a []|].
  pose proof (run_counts_bookings
                (ops ++ [BookAppointment p d t e r n now]) empty_store) as X.
  destruct (book_appointment_Ok _ _ _ _ _ _ _ _ _ H)
    as (_ & _ & _ & _ & S1 & S2 & Hi & _).
  destruct (execute_insert_Appointments_seq (Integer p) (Integer d)
              (option_map Integer r) t e (Some n) now (run ops empty_store))
    as [(A & _)|(A & _)]; unfold book_appointment in H; rewrite H in A;
    [discriminate|].
  injection A as ->.
  unfold new_rowid.
  destruct (largest_rowid _) as [v|] eqn:E.
  - assert (In v (map Appointment.appointment_id
                    (Appointments (run ops empty_store)))).
    { clear -E. revert v E.
      induction (map Appointment.appointment_id
                   (Appointments (run ops empty_store))) as [|x l IH];
        simpl; intros v E; [discriminate|].
      destruct (largest_rowid l) as [y|].
      - injection E as <-. destruct (Z.max_spec x y) as [[_ ->]|[_ ->]]; auto.
      - injection E as <-. auto. }
    apply in_map_iff in H0. destruct H0 as (a & <- & Ha).
    specialize (C a Ha). simpl in Q. lia.
  - simpl in Q. lia.
Qed.

(** The third booking of a history gets id 3, although the first two
    appointments are gone by then. *)
Lemma booking_ids_count_third :
  snd (book_appointment 2 2 slot None None "" clock
         (run (patient_twice ++ [PatientDelete 1]) empty_store)) = Ok 3
  /\ Appointments (run (patient_twice ++ [PatientDelete 1]) empty_store) = []
  /\ 3 = Z.of_nat (created (patient_twice ++ [PatientDelete 1]) empty_store) + 1.
Proof.
  split; [reflexivity|]. split; [reflexivity|].
  apply (booking_ids_count (patient_twice ++ [PatientDelete 1])
           2 2 slot None None "" clock 3).
  reflexivity.
Defined.

(** ** Creating a doctor *)

Lemma truthy_false (x : string) : truthy x = false <-> x = EmptyString.
Proof. destruct x; simpl; split; congruence. Qed.

(** X7.  [doctor_new] refuses a POST whose name or specialization is empty
    once stripped, and changes nothing then.  Any other POST adds one
    doctor, with a new id and the stripped texts, after the rows the table
    had: no constraint stands in the way, so a second doctor of the same
    name is accepted.  A GET changes nothing. *)
Theorem doctor_new_cases (f : form) (s : store) :
  let full_name := strip (form_get_or f "full_name" "") in
  let specialization := strip (form_get_or f "specialization" "") in
  (full_name = EmptyString \/ specialization = EmptyString ->
   doctor_new POST f s
   = (s, mk_response
           (Some (Notice "Doctor name and specialization are required."))
           (Redirect "doctor_new")))
  /\ (full_name <> EmptyString -> specialization <> EmptyString ->
      exists id,
        ~ In id (map Doctor.doctor_id (Doctors s))
        /\ Doctors (fst (doctor_new POST f s))
           = Doctors s ++ [Doctor.mk id full_name specialization]
        /\ snd (doctor_new POST f s)
           = mk_response (Some (Notice "Doctor added successfully."))
               (Redirect "doctors")
        /\ Patients (fst (doctor_new POST f s)) = Patients s
        /\ Rooms (fst (doctor_new POST f s)) = Rooms s
        /\ Appointments (fst (doctor_new POST f s)) = Appointments s
        /\ AuditLog (fst (doctor_new POST f s)) = AuditLog s)
  /\ doctor_new GET f s = (s, mk_response None (Render "doctor_new.html")).
Proof.
  cbv zeta. unfold doctor_new.
  remember (strip (form_get_or f "full_name" "")) as nm eqn:En.
  remember (strip (form_get_or f "specialization" "")) as sp eqn:Es.
  split; [|split; [|reflexivity]].
  - intros [-> | ->]; simpl; [reflexivity|].
    now rewrite orb_true_r.
  - intros Hn Hs.
    assert (Tn : truthy nm = true).
    { destruct (truthy nm) eqn:E; [reflexivity|].
      apply truthy_false in E. contradiction. }
    assert (Ts : truthy sp = true).
    { destruct (truthy sp) eqn:E; [reflexivity|].
      apply truthy_false in E. contradiction. }
    rewrite Tn, Ts. cbn [negb orb fst snd].
    exists (new_rowid (seq_Doctors (sequence s))
              (map Doctor.doctor_id (Doctors s))).
    split; [apply new_rowid_fresh|].
    unfold execute, insert_Doctors. cbn [fst snd Doctors with_Doctors].
    repeat split.
    apply insert_row_last. intros x Hx. cbn [Doctor.doctor_id].
    apply new_rowid_above. now apply in_map.
Qed.

(** ** Names made of white space *)

Lemma lstrip_bytes_spaces (b : bool) (l : list ascii) :
  Forall (fun c => space1 c = true) l -> lstrip_bytes b l = [].
Proof.
  induction 1 as [|c l Hc Hl IH]; simpl; [reflexivity|]. now rewrite Hc.
Qed.

Lemma strip_spaces (x : string) :
  Forall (fun c => space1 c = true) (list_ascii_of_string x) ->
  strip x = EmptyString.
Proof.
  intros H. unfold strip. now rewrite (lstrip_bytes_spaces false _ H).
Qed.

(** X8.  A full name made of ASCII white space only (blanks, tabs, line ends)
    counts as missing: [patient_new] and [doctor_new] both refuse the POST
    and leave the store as it was. *)
Theorem blank_names_refused (f : form) (s : store) :
  Forall (fun c => space1 c = true)
         (list_ascii_of_string (form_get_or f "full_name" "")) ->
  patient_new POST f s
  = (s, mk_response (Some (Notice "Full name is required."))
          (Redirect "patient_new"))
  /\ doctor_new POST f s
     = (s, mk_response
             (Some (Notice "Doctor name and specialization are required."))
             (Redirect "doctor_new")).
Proof.
  intros H. apply strip_spaces in H.
  unfold patient_new, doctor_new. rewrite H. split; reflexivity.
Qed.

(** A name of two blanks and a tab. *)
Lemma blank_names_refused_tab :
  patient_new POST blank_name seeded
  = (seeded, mk_response (Some (Notice "Full name is required."))
               (Redirect "patient_new")).
Proof.
  apply (blank_names_refused blank_name seeded).
  simpl. repeat constructor.
Defined.

(** ** The route /book *)


(** ** Deleting twice, and in either order *)

Lemma filter_comm {A : Type} (f g : A -> bool) (l : list A) :
  filter f (filter g l) = filter g (filter f l).
Proof.
  induction l as [|x l IH]; simpl; [reflexivity|].
  destruct (f x) eqn:Ef, (g x) eqn:Eg; simpl; rewrite ?Ef, ?Eg, IH; reflexivity.
Qed.

(** X9.  Deleting a patient that does not exist, by an id that the route
    and SQLite both take, changes nothing, though the route still says
    "Patient deleted."; deleting the same patient twice is deleting it
    once; and deleting a patient and a doctor gives the same store in
    either order. *)
Theorem deletes_compose (s : store) (P D : Z) :
  (0 <= P < 2 ^ 63 -> has_patient s P = false ->
   patient_delete P s
   = (s, mk_response (Some (Notice "Patient deleted.")) (Redirect "patients")))
  /\ fst (patient_delete P (fst (patient_delete P s))) = fst (patient_delete P s)
  /\ fst (doctor_delete D (fst (doctor_delete D s))) = fst (doctor_delete D s)
  /\ fst (patient_delete P (fst (doctor_delete D s)))
     = fst (doctor_delete D (fst (patient_delete P s))).
Proof.
  unfold patient_delete, doctor_delete. cbn [fst].
  split; [|split; [|split]].
  - intros _ H. unfold delete_Patients. now rewrite H.
  - unfold delete_Patients at 1.
    destruct (has_patient (delete_Patients P s) P) eqn:E; [|reflexivity].
    exfalso. revert E. unfold delete_Patients.
    destruct (has_patient s P) eqn:E0; [|congruence].
    unfold has_patient. cbn [Patients].
    now rewrite (existsb_filter_negb (fun p => Patient.patient_id p =? P)).
  - unfold delete_Doctors at 1.
    destruct (has_doctor (delete_Doctors D s) D) eqn:E; [|reflexivity].
    exfalso. revert E. unfold delete_Doctors.
    destruct (has_doctor s D) eqn:E0; [|congruence].
    unfold has_doctor. cbn [Doctors].
    now rewrite (existsb_filter_negb (fun d => Doctor.doctor_id d =? D)).
  - unfold delete_Patients, delete_Doctors, has_patient, has_doctor.
    destruct (existsb (fun p => Patient.patient_id p =? P) (Patients s)) eqn:EP;
      destruct (existsb (fun d => Doctor.doctor_id d =? D) (Doctors s)) eqn:ED;
      cbn [Patients Doctors Rooms Appointments AuditLog sequence];
      rewrite ?EP, ?ED; try reflexivity.
    f_equal. apply filter_comm.
Qed.

(** ** The home page brings the seed rows back *)

Lemma init_db_restores (s s' : store) :
  s' = seed_with insert_or_ignore_Rooms seed_Rooms
         (seed_with insert_or_ignore_Doctors seed_Doctors
            (seed_with insert_or_ignore_Patients seed_Patients s)) ->
  Forall (fun r => has_doctor s' (Doctor.doctor_id r) = true) seed_Doctors
  /\ Forall (fun r => has_patient s' (Patient.patient_id r) = true
                      \/ email_taken s' (Patient.email r) = true)
            seed_Patients
  /\ Forall (fun r => has_room s' (Room.room_id r) = true
                      \/ room_number_taken s' (Room.room_number r) = true)
            seed_Rooms
  /\ Appointments s' = Appointments s
  /\ AuditLog s' = AuditLog s
  /\ (forall p, In p (Patients s) -> In p (Patients s'))
  /\ (forall d, In d (Doctors s) -> In d (Doctors s'))
  /\ (forall r, In r (Rooms s) -> In r (Rooms s')).
Proof.
  intros E.
  pose proof (seeds_settled s) as S. cbv zeta in S. rewrite <- E in S.
  assert (X : extends s s').
  { rewrite E. unfold seed_with.
    eapply extends_trans;
      [apply (fold_left_extends insert_or_ignore_Patients seed_Patients
                insert_or_ignore_Patients_extends)|].
    eapply extends_trans;
      [apply (fold_left_extends insert_or_ignore_Doctors seed_Doctors
                insert_or_ignore_Doctors_extends)|].
    apply (fold_left_extends insert_or_ignore_Rooms seed_Rooms
             insert_or_ignore_Rooms_extends). }
  clear E. destruct S as (FP & FD & FR). destruct X as [EA EL EP ED ER].
  split; [|split; [|split; [|split; [|split; [|split; [|split]]]]]];
    try assumption.
  - revert FD. apply Forall_impl. intros r [H _]. exact H.
  - assert (G : Forall (fun r => gender_check (Patient.gender r) = true)
                 seed_Patients) by (repeat constructor).
    apply Forall_forall. intros r Hr.
    pose proof (proj1 (Forall_forall _ _) FP r Hr) as [H _].
    pose proof (proj1 (Forall_forall _ _) G r Hr) as Hg.
    rewrite Hg in H. cbn [negb orb] in H.
    now apply orb_true_iff in H.
  - revert FR. apply Forall_impl. intros r [H _].
    now apply orb_true_iff in H.
Qed.

(** X10.  [home] runs [ensure_db] before it reads.  Whatever the store was,
    afterwards every seed doctor exists, every seed patient exists or its
    email belongs to another patient, and every seed room exists or its
    number belongs to another room; the appointments and the audit log are
    those of before.  So a seed doctor that was deleted is back on the next
    visit of the home page, without the appointments the deletion took. *)
Theorem home_restores_seeds (s : store) :
  let s' := fst (home s) in
  Forall (fun r => has_doctor s' (Doctor.doctor_id r) = true) seed_Doctors
  /\ Forall (fun r => has_patient s' (Patient.patient_id r) = true
                      \/ email_taken s' (Patient.email r) = true)
            seed_Patients
  /\ Forall (fun r => has_room s' (Room.room_id r) = true
                      \/ room_number_taken s' (Room.room_number r) = true)
            seed_Rooms
  /\ Appointments s' = Appointments s
  /\ AuditLog s' = AuditLog s
  /\ (forall p, In p (Patients s) -> In p (Patients s'))
  /\ (forall d, In d (Doctors s) -> In d (Doctors s'))
  /\ (forall r, In r (Rooms s) -> In r (Rooms s')).
Proof.
  apply (init_db_restores s (fst (home s))).
  unfold home, ensure_db. cbn [fst]. now rewrite init_db_unfold.
Qed.

(** ** Deleting a room and the reports *)

Lemma filter_map_length {A : Type} (q : A -> bool) (g : A -> A) (l : list A) :
  (forall a, q (g a) = q a) ->
  List.length (filter q (map g l)) = List.length (filter q l).
Proof.
  intros H. induction l as [|a l IH]; simpl; [reflexivity|].
  rewrite H. destruct (q a); simpl; now rewrite IH.
Qed.

Lemma not_cancelled_set_null_room (R : Z) (a : Appointment.row) :
  not_cancelled (set_null_room R a) = not_cancelled a.
Proof.
  unfold not_cancelled.
  destruct (set_null_room_fields R a) as (_ & _ & _ & _ & _ & _ & E & _).
  now rewrite E.
Qed.

Lemma room_is_set_null_room (R x : Z) (a : Appointment.row) :
  x <> R -> room_is x (set_null_room R a) = room_is x a.
Proof.
  intros N. unfold set_null_room. destruct (room_is R a) eqn:E; [|reflexivity].
  unfold room_is in *. cbn [Appointment.room_id].
  destruct (Appointment.room_id a) as [y|]; [|reflexivity].
  apply Z.eqb_eq in E. subst. symmetry. now apply Z.eqb_neq.
Qed.

(** X18.  Deleting a room moves no count of the per-doctor report, leaves the
    global count of appointments as it was, and moves no count, total or
    daily, of any other room: the appointments of the deleted room stay,
    with their doctor and status, and only stop counting for a room. *)
Theorem room_delete_keeps_counts (s : store) (R : Z) :
  let s' := delete_Rooms R s in
  report_appointments_per_doctor s' = report_appointments_per_doctor s
  /\ count_appts (global_counts s') = count_appts (global_counts s)
  /\ (forall r date, Room.room_id r <> R ->
        room_total s' r = room_total s r
        /\ daily_total s' date r = daily_total s date r).
Proof.
  cbv zeta. unfold delete_Rooms.
  destruct (has_room s R); [|repeat split; reflexivity].
  split; [|split].
  - unfold report_appointments_per_doctor. cbn [Doctors]. f_equal.
    apply map_ext. intros d. unfold total_appointments. cbn [Appointments].
    do 2 f_equal. apply filter_map_length. intros a.
    rewrite not_cancelled_set_null_room.
    destruct (set_null_room_fields R a) as (_ & _ & E & _). now rewrite E.
  - unfold global_counts. cbn [Appointments count_appts]. f_equal.
    apply filter_map_length. apply not_cancelled_set_null_room.
  - intros r date N. unfold room_total, daily_total. cbn [Appointments].
    split; f_equal; apply filter_map_length; intros a;
      rewrite not_cancelled_set_null_room, (room_is_set_null_room R _ a N);
      try reflexivity.
    destruct (set_null_room_fields R a) as (_ & _ & _ & E & _). now rewrite E.
Qed.

(** ** Foreign keys over histories *)

(** X1.  After any history from the empty database every appointment has its
    patient and its doctor in their tables, and its room too when it has
    one: no operation leaves an appointment behind without a parent. *)
Theorem foreign_keys_over_histories (ops : list op) :
  let s := run ops empty_store in
  forall a, In a (Appointments s) ->
    (exists p, In p (Patients s)
               /\ Patient.patient_id p = Appointment.patient_id a)
    /\ (exists d, In d (Doctors s)
                  /\ Doctor.doctor_id d = Appointment.doctor_id a)
    /\ (forall r, Appointment.room_id a = Some r ->
          exists x, In x (Rooms s) /\ Room.room_id x = r).
Proof.
  simpl. intros a Ha.
  pose proof (references_hold _ (run_consistent ops empty_store consistent_empty)
                a Ha) as F.
  destruct (foreign_keys_hold_parts _ a F) as (Hp & Hd & Hr).
  split; [now apply has_patient_iff|].
  split; [now apply has_doctor_iff|].
  intros r E. apply has_room_iff. now apply Hr.
Qed.

(** ** What [patient_new] stores *)

(** X6.  A POST to [patient_new] with a name that is not empty once stripped.
    When the stripped gender is none of Male, Female, Other, or the
    stripped email is the email of a patient already stored, the store
    stays as it was and the failure is flashed.  Otherwise one patient is
    added after the rows the table had, with a new id and the five stripped
    texts as they are: a field left blank is stored as the empty text, not
    as NULL.  A GET changes nothing. *)
Theorem patient_new_outcomes (f : form) (s : store) :
  let full_name := strip (form_get_or f "full_name" "") in
  let dob := strip (form_get_or f "date_of_birth" "") in
  let gender := strip (form_get_or f "gender" "") in
  let phone := strip (form_get_or f "phone" "") in
  let email := strip (form_get_or f "email" "") in
  let known := existsb (fun p => match Patient.email p with
                                 | Some x => String.eqb x email
                                 | None => false
                                 end) (Patients s) in
  let listed := (String.eqb gender "Male" || String.eqb gender "Female"
                 || String.eqb gender "Other")%bool in
  full_name <> EmptyString ->
  (listed = false -> fst (patient_new POST f s) = s
     /\ flashed (snd (patient_new POST f s))
        = Some (Failure "Could not add patient: "
                  (IntegrityError (CheckFailed "Patients"))))
  /\ (listed = true -> known = true -> fst (patient_new POST f s) = s
      /\ flashed (snd (patient_new POST f s))
         = Some (Failure "Could not add patient: "
                   (IntegrityError (UniqueFailed "Patients.email"))))
  /\ (listed = true -> known = false ->
      exists id,
        ~ In id (map Patient.patient_id (Patients s))
        /\ Patients (fst (patient_new POST f s))
           = Patients s ++ [Patient.mk id full_name (Some dob) (Some gender)
                              (Some phone) (Some email)]
        /\ flashed (snd (patient_new POST f s))
           = Some (Notice "Patient added successfully."))
  /\ patient_new GET f s = (s, mk_response None (Render "patient_new.html")).
Proof.
  cbv zeta. intros Hn. unfold patient_new, execute, insert_Patients.
  remember (strip (form_get_or f "full_name" "")) as nm eqn:En.
  remember (strip (form_get_or f "date_of_birth" "")) as dob eqn:Eb.
  remember (strip (form_get_or f "gender" "")) as g eqn:Eg.
  remember (strip (form_get_or f "phone" "")) as ph eqn:Eh.
  remember (strip (form_get_or f "email" "")) as em eqn:Ee.
  assert (Tn : truthy nm = true).
  { destruct (truthy nm) eqn:E; [reflexivity|].
    apply truthy_false in E. contradiction. }
  rewrite Tn. cbn [negb].
  change (gender_check (Some g))
    with (String.eqb g "Male" || String.eqb g "Female" || String.eqb g "Other")%bool.
  change (email_taken s (Some em))
    with (existsb (fun p => match Patient.email p with
                            | Some x => String.eqb x em
                            | None => false
                            end) (Patients s)).
  destruct (String.eqb g "Male" || String.eqb g "Female" || String.eqb g "Other")%bool;
    destruct (existsb _ (Patients s)); cbn [negb fst snd flashed];
    repeat split; intros; try discriminate; try reflexivity.
  exists (new_rowid (seq_Patients (sequence s))
            (map Patient.patient_id (Patients s))).
  split; [apply new_rowid_fresh|]. split; [|reflexivity].
  cbn [Patients with_Patients].
  apply insert_row_last. intros x Hx. cbn [Patient.patient_id].
  apply new_rowid_above. now apply in_map.
Qed.

(** On the seeded database the form of [name_and_gender] adds Carol Silva
    with the empty text as date of birth, phone and email. *)
Lemma patient_new_outcomes_seeded :
  exists id,
    ~ In id (map Patient.patient_id (Patients seeded))
    /\ Patients (fst (patient_new POST (name_and_gender "Carol Silva") seeded))
       = Patients seeded
         ++ [Patient.mk id "Carol Silva" (Some EmptyString)
               (Some "Female"%string) (Some EmptyString) (Some EmptyString)].
Proof.
  destruct (patient_new_outcomes (name_and_gender "Carol Silva") seeded)
    as (_ & _ & (id & N & H & _) & _);
    [discriminate|reflexivity|reflexivity|].
  exists id. split; [exact N|exact H].
Defined.

(** The appointment of [booked_once] has its patient, its doctor and its
    room. *)
Lemma foreign_keys_over_histories_booked_once :
  (exists p, In p (Patients booked_once) /\ Patient.patient_id p = 1)
  /\ (exists d, In d (Doctors booked_once) /\ Doctor.doctor_id d = 1)
  /\ (forall r, Some 1 = Some r ->
        exists x, In x (Rooms booked_once) /\ Room.room_id x = r).
Proof.
  apply (foreign_keys_over_histories
           [InitDb; BookAppointment 1 1 slot None (Some 1) "" clock]
           (Appointment.mk 1 1 1 (Some 1) slot None (Some EmptyString) Booked)).
  left. reflexivity.
Defined.
